(** * AI Trivia Quiz: the controller, the question client and the service worker

    A shallow embedding of
    - [src/types.ts]            (the data model),
    - [src/App.tsx]             (the controller with categories and a timer),
    - [src/unnamed/part_000]    (the single-file, difficulty-only build with
                                 the question client [generateTriviaQuestion]),
    - [src/service-worker.js]   (the offline cache),
    and the properties of the specification checked against them.

    React state is one record per component; a [setX] call is a record
    update, an event handler is the composition of its [setX] calls in source
    order, and an effect is a function run after a commit.  React applies the
    updates made in one turn of the event loop together (automatic batching,
    also for the updates made after an [await]), so one turn is one state
    transition.  An [async] function is cut at its [await]: the part before
    it runs with the event that calls it, the part after it runs with the
    event that delivers the network result. *)

From stdpp Require Import base decidable option list gmap strings pretty.
From Stdlib Require Import ZArith String Ascii Lia.

Open Scope Z_scope.

(** ** [src/types.ts] *)

(** [type AnswerKey = 'A' | 'B' | 'C' | 'D'] *)
Inductive AnswerKey := KeyA | KeyB | KeyC | KeyD.

(** [type Difficulty = 'Easy' | 'Medium' | 'Hard'] *)
Inductive Difficulty := Easy | Medium | Hard.

#[global] Instance AnswerKey_eq_dec : EqDecision AnswerKey.
Proof. solve_decision. Defined.

#[global] Instance Difficulty_eq_dec : EqDecision Difficulty.
Proof. solve_decision. Defined.

(** The string an [AnswerKey] is at run time. *)
Definition key_string (k : AnswerKey) : string :=
  match k with KeyA => "A" | KeyB => "B" | KeyC => "C" | KeyD => "D" end.

(** [interface TriviaQuestion] *)
Module TriviaQuestion.
Record options_t := mkOptions { A : string; B : string; C : string; D : string }.
Record t := mk {
  question : string;
  options : options_t;
  correctAnswer : AnswerKey
}.
End TriviaQuestion.

#[global] Instance options_eq_dec : EqDecision TriviaQuestion.options_t.
Proof. solve_decision. Defined.

#[global] Instance TriviaQuestion_eq_dec : EqDecision TriviaQuestion.t.
Proof. solve_decision. Defined.

(** JavaScript truthiness of the values the controller tests with [!x] and
    [x && ...]: [null] is falsy, a string is falsy exactly when empty, an
    object is truthy. *)
Definition truthy_string (s : option string) : bool :=
  match s with
  | Some s => negb (bool_decide (s = ""%string))
  | None => false
  end.

Definition truthy_obj {T} (o : option T) : bool :=
  match o with Some _ => true | None => false end.

(** ** [src/App.tsx]: the controller with categories and a countdown *)
Module App.

(** [const TIME_LIMIT = 15; // seconds] *)
Definition TIME_LIMIT : Z := 15.

(** The nine [useState] cells of the component, lines 13-21.  [score] and
    [timeLeft] are JavaScript numbers that only ever hold small integers
    ([+ 1] and [- 1] from [0] and [15]), where number arithmetic is exact;
    they are integers here. *)
Record State := mkState {
  question : option TriviaQuestion.t;
  score : Z;
  isLoading : bool;
  error : option string;
  selectedAnswer : option AnswerKey;
  isAnswered : bool;
  category : option string;
  difficulty : option Difficulty;
  timeLeft : Z
}.

(** The initial values given to [useState]. *)
Definition initial : State :=
  {| question := None; score := 0; isLoading := false; error := None;
     selectedAnswer := None; isAnswered := false; category := None;
     difficulty := None; timeLeft := TIME_LIMIT |}.

(** *** The state setters *)
Definition setQuestion (v : option TriviaQuestion.t) (s : State) : State :=
  {| question := v; score := score s; isLoading := isLoading s;
     error := error s; selectedAnswer := selectedAnswer s;
     isAnswered := isAnswered s; category := category s;
     difficulty := difficulty s; timeLeft := timeLeft s |}.

Definition setScore (f : Z -> Z) (s : State) : State :=
  {| question := question s; score := f (score s); isLoading := isLoading s;
     error := error s; selectedAnswer := selectedAnswer s;
     isAnswered := isAnswered s; category := category s;
     difficulty := difficulty s; timeLeft := timeLeft s |}.

Definition setIsLoading (v : bool) (s : State) : State :=
  {| question := question s; score := score s; isLoading := v;
     error := error s; selectedAnswer := selectedAnswer s;
     isAnswered := isAnswered s; category := category s;
     difficulty := difficulty s; timeLeft := timeLeft s |}.

Definition setError (v : option string) (s : State) : State :=
  {| question := question s; score := score s; isLoading := isLoading s;
     error := v; selectedAnswer := selectedAnswer s;
     isAnswered := isAnswered s; category := category s;
     difficulty := difficulty s; timeLeft := timeLeft s |}.

Definition setSelectedAnswer (v : option AnswerKey) (s : State) : State :=
  {| question := question s; score := score s; isLoading := isLoading s;
     error := error s; selectedAnswer := v;
     isAnswered := isAnswered s; category := category s;
     difficulty := difficulty s; timeLeft := timeLeft s |}.

Definition setIsAnswered (v : bool) (s : State) : State :=
  {| question := question s; score := score s; isLoading := isLoading s;
     error := error s; selectedAnswer := selectedAnswer s;
     isAnswered := v; category := category s;
     difficulty := difficulty s; timeLeft := timeLeft s |}.

Definition setCategory (v : option string) (s : State) : State :=
  {| question := question s; score := score s; isLoading := isLoading s;
     error := error s; selectedAnswer := selectedAnswer s;
     isAnswered := isAnswered s; category := v;
     difficulty := difficulty s; timeLeft := timeLeft s |}.

Definition setDifficulty (v : option Difficulty) (s : State) : State :=
  {| question := question s; score := score s; isLoading := isLoading s;
     error := error s; selectedAnswer := selectedAnswer s;
     isAnswered := isAnswered s; category := category s;
     difficulty := v; timeLeft := timeLeft s |}.

Definition setTimeLeft (f : Z -> Z) (s : State) : State :=
  {| question := question s; score := score s; isLoading := isLoading s;
     error := error s; selectedAnswer := selectedAnswer s;
     isAnswered := isAnswered s; category := category s;
     difficulty := difficulty s; timeLeft := f (timeLeft s) |}.

(** *** [fetchNewQuestion], lines 23-41

    The request carries the two arguments of
    [generateTriviaQuestion(difficulty, category)]. *)
Record Request := mkRequest {
  req_difficulty : Difficulty;
  req_category : string
}.

(** What the awaited promise delivers: a question, or a thrown value. *)
Inductive FetchResult :=
| Fulfilled (newQuestion : TriviaQuestion.t)
| Rejected.

(** Lines 24-32, up to the [await]: the new state and the request issued
    (none when the guard of line 24 returns). *)
Definition fetchNewQuestion_start (s : State) : State * option Request :=
  if negb (truthy_obj (difficulty s)) || negb (truthy_string (category s))
  then (s, None)
  else
    let s' := setIsLoading true s in
    let s' := setError None s' in
    let s' := setSelectedAnswer None s' in
    let s' := setIsAnswered false s' in
    let s' := setQuestion None s' in
    (s', d ← difficulty s; c ← category s; Some (mkRequest d c)).

(** Lines 33-40, after the [await]: [try] / [catch] / [finally]. *)
Definition fetchNewQuestion_settle (r : FetchResult) (s : State) : State :=
  let s :=
    match r with
    | Fulfilled newQuestion =>
        let s := setQuestion (Some newQuestion) s in
        setTimeLeft (fun _ => TIME_LIMIT) s
    | Rejected =>
        setError (Some "Failed to generate a new question. Please try again."%string) s
    end in
  setIsLoading false s.

(** *** The timer effect, lines 49-64 *)
Inductive TimerEffect :=
| NoTimer      (* line 51: return, no interval registered *)
| TimeUp       (* line 55: setIsAnswered(true) *)
| Interval.    (* line 59: setInterval(..., 1000) *)

Definition timerEffect (s : State) : TimerEffect :=
  if negb (truthy_obj (question s)) || isAnswered s || isLoading s then NoTimer
  else if timeLeft s <=? 0 then TimeUp
  else Interval.

Definition registers (t : TimerEffect) : bool :=
  match t with Interval => true | _ => false end.

(** The callback of the interval, line 60. *)
Definition tick (s : State) : State := setTimeLeft (fun prevTime => prevTime - 1) s.

(** *** The event handlers, lines 67-99 *)
Definition handleAnswerSelect (answer : AnswerKey) (s : State) : State :=
  if isAnswered s then s
  else
    let s' := setSelectedAnswer (Some answer) s in
    let s' := setIsAnswered true s' in
    (* [answer === question?.correctAnswer], with the [question] of the
       render the handler belongs to *)
    if bool_decide (Some answer = TriviaQuestion.correctAnswer <$> question s)
    then setScore (fun prevScore => prevScore + 1) s'
    else s'.

Definition handleCategorySelect (selectedCategory : string) (s : State) : State :=
  let s := setCategory (Some selectedCategory) s in
  let s := setDifficulty None s in
  setScore (fun _ => 0) s.

Definition handleDifficultySelect (selectedDifficulty : Difficulty) (s : State) : State :=
  let s := setScore (fun _ => 0) s in
  setDifficulty (Some selectedDifficulty) s.

Definition resetCategory (s : State) : State :=
  let s := setCategory None s in
  let s := setDifficulty None s in
  let s := setQuestion None s in
  setScore (fun _ => 0) s.

Definition resetDifficulty (s : State) : State :=
  let s := setDifficulty None s in
  let s := setQuestion None s in
  setScore (fun _ => 0) s.

(** *** The effects and the event loop

    The fetch effect, lines 43-47.  Its dependencies are [difficulty],
    [category] and [fetchNewQuestion], a [useCallback] over the same two
    values: it runs after a commit that changed one of them. *)
Definition fetchEffect (prev cur : State) : State * option Request :=
  if bool_decide (difficulty prev = difficulty cur /\ category prev = category cur)
  then (cur, None)
  else if truthy_obj (difficulty cur) && truthy_string (category cur)
       then fetchNewQuestion_start cur
       else (cur, None).

(** Running the timer effect to quiescence: [TimeUp] updates the state, and
    the effect runs again on the updated state.  The result is the state and
    whether an interval is left registered.  (The effect's outcome depends
    only on its dependencies [timeLeft, isAnswered, question, isLoading], so
    running it after every commit registers the same interval as running it
    after the commits that changed one of them.) *)
Definition runTimerEffect (s : State) : State * bool :=
  match timerEffect s with
  | NoTimer => (s, false)
  | Interval => (s, true)
  | TimeUp =>
      let s' := setIsAnswered true s in
      (s', registers (timerEffect s'))
  end.

(** What [renderContent] and the JSX of lines 102-185 put on the page: the
    controls whose handlers can be invoked. *)
Definition showsCategorySelector (s : State) : bool :=
  negb (truthy_string (category s)).

Definition showsDifficultySelector (s : State) : bool :=
  truthy_string (category s) && negb (truthy_obj (difficulty s)).

Definition showsQuizCard (s : State) : bool :=
  truthy_string (category s) && truthy_obj (difficulty s)
  && negb (isLoading s) && negb (truthy_string (error s))
  && truthy_obj (question s).

(** The button of lines 158-164, [disabled={isLoading}]. *)
Definition nextButtonEnabled (s : State) : bool :=
  truthy_obj (difficulty s) && negb (isLoading s).

(** The footer buttons of lines 169-180. *)
Definition showsChangeCategory (s : State) : bool := truthy_string (category s).
Definition showsChangeDifficulty (s : State) : bool :=
  truthy_string (category s) && truthy_obj (difficulty s).

(** The component and its environment: the committed state, whether the
    interval of the timer effect is registered, and the requests awaiting
    their result.  The numbers on the requests are the order of issue; the
    code keeps none of this, they only name the requests in statements. *)
Record Sys := mkSys {
  ui : State;
  interval : bool;
  inflight : list (nat * Request);
  issued : nat
}.

Definition boot : Sys :=
  {| ui := initial; interval := false; inflight := []; issued := 0 |}.

Inductive Event :=
| SelectCategory (c : string)
| SelectDifficulty (d : Difficulty)
| SelectAnswer (k : AnswerKey)
| NextQuestion                       (* the Skip / Next Question button *)
| ChangeCategory
| ChangeDifficulty
| TimerTick
| FetchSettled (id : nat) (r : FetchResult).

Definition is_inflight (id : nat) (w : Sys) : bool :=
  bool_decide (id ∈ (inflight w).*1).

Definition enabled (e : Event) (w : Sys) : bool :=
  match e with
  | SelectCategory _ => showsCategorySelector (ui w)
  | SelectDifficulty _ => showsDifficultySelector (ui w)
  | SelectAnswer _ => showsQuizCard (ui w)
  | NextQuestion => nextButtonEnabled (ui w)
  | ChangeCategory => showsChangeCategory (ui w)
  | ChangeDifficulty => showsChangeDifficulty (ui w)
  | TimerTick => interval w
  | FetchSettled id _ => is_inflight id w
  end.

(** The handler an event invokes, with the request it issues if any. *)
Definition handler (e : Event) (s : State) : State * option Request :=
  match e with
  | SelectCategory c => (handleCategorySelect c s, None)
  | SelectDifficulty d => (handleDifficultySelect d s, None)
  | SelectAnswer k => (handleAnswerSelect k s, None)
  | NextQuestion => fetchNewQuestion_start s
  | ChangeCategory => (resetCategory s, None)
  | ChangeDifficulty => (resetDifficulty s, None)
  | TimerTick => (tick s, None)
  | FetchSettled _ r => (fetchNewQuestion_settle r s, None)
  end.

Definition issue (r : option Request) (w : list (nat * Request) * nat)
  : list (nat * Request) * nat :=
  match r with
  | Some r => (w.1 ++ [(w.2, r)], S w.2)
  | None => w
  end.

Definition settle_request (e : Event) (l : list (nat * Request)) : list (nat * Request) :=
  match e with
  | FetchSettled id _ => filter (fun p => p.1 <> id) l
  | _ => l
  end.

(** One turn of the event loop: the handler, the commit, the effects. *)
Definition step (e : Event) (w : Sys) : Sys :=
  if enabled e w then
    let '(s1, r1) := handler e (ui w) in
    let '(s2, r2) := fetchEffect (ui w) s1 in
    let '(s3, iv) := runTimerEffect s2 in
    let '(reqs, n) := issue r2 (issue r1 (settle_request e (inflight w), issued w)) in
    {| ui := s3; interval := iv; inflight := reqs; issued := n |}
  else w.

Definition run (es : list Event) (w : Sys) : Sys :=
  fold_left (fun w e => step e w) es w.

Definition reachable (w : Sys) : Prop := exists es, w = run es boot.

(** The outcome of a round, read off an answered state the way the quiz
    card shows it. *)
Inductive Outcome := TimedOut | CorrectAnswer | IncorrectAnswer.

Definition outcome (s : State) : option Outcome :=
  match question s with
  | Some q =>
      if isAnswered s then
        match selectedAnswer s with
        | None => Some TimedOut
        | Some k =>
            if bool_decide (k = TriviaQuestion.correctAnswer q)
            then Some CorrectAnswer else Some IncorrectAnswer
        end
      else None
  | None => None
  end.

End App.

(** ** JSON values, as [response.json()] delivers them *)

(** Numbers are integers here, [JNum n] being the number written [n]: the
    code only tests a number for being zero and prints it into a message,
    and the one number it always prints is the response status. *)
#[warnings="-register-all"]
Inductive JSON :=
| JNull
| JBool (b : bool)
| JNum (n : Z)
| JStr (s : string)
| JArr (items : list JSON)
| JObj (fields : list (string * JSON)).

(** A JavaScript value read from a JSON value: [None] is [undefined]. *)
Definition JSValue := option JSON.

(** Evaluating a JavaScript expression either yields a value or throws an
    [Error] with a message. *)
Inductive Eval (T : Type) :=
| Value (v : T)
| Throws (message : string).
Arguments Value {T} v.
Arguments Throws {T} message.

Definition bindEval {T U} (m : Eval T) (k : T -> Eval U) : Eval U :=
  match m with
  | Value v => k v
  | Throws message => Throws message
  end.

Notation "'let*' x ':=' m 'in' k" := (bindEval m (fun x => k))
  (at level 10, x name, m at level 100, k at level 200).

(** [a && b] on booleans computed by throwing expressions: [b] is evaluated
    only when [a] is true. *)
Definition andThen (a : Eval bool) (b : Eval bool) : Eval bool :=
  let* x := a in if x then b else Value false.

Fixpoint field (k : string) (fields : list (string * JSON)) : JSValue :=
  match fields with
  | [] => None
  | (k', v) :: rest => if bool_decide (k' = k) then Some v else field k rest
  end.

(** [v.k] for the property names the client reads ([question], [options],
    [correctAnswer], [A] to [D], [error]), none of which is on a prototype:
    an own property of an object, [undefined] on anything else, and a
    TypeError on [null] and [undefined] (the message is V8's). *)
Definition getProp (v : JSValue) (k : string) : Eval JSValue :=
  match v with
  | Some (JObj fields) => Value (field k fields)
  | Some JNull =>
      Throws ("Cannot read properties of null (reading '" +:+ k +:+ "')")
  | None =>
      Throws ("Cannot read properties of undefined (reading '" +:+ k +:+ "')")
  | Some _ => Value None
  end.

(** [typeof v] *)
Definition typeof (v : JSValue) : string :=
  match v with
  | None => "undefined"
  | Some (JBool _) => "boolean"
  | Some (JNum _) => "number"
  | Some (JStr _) => "string"
  | Some JNull | Some (JArr _) | Some (JObj _) => "object"
  end.

(** Truthiness, as [&&], [||] and [if] test it. *)
Definition truthy (v : JSValue) : bool :=
  match v with
  | None | Some JNull => false
  | Some (JBool b) => b
  | Some (JNum n) => negb (n =? 0)
  | Some (JStr s) => negb (bool_decide (s = ""%string))
  | Some (JArr _) | Some (JObj _) => true
  end.

Fixpoint join (sep : string) (l : list string) : string :=
  match l with
  | [] => ""
  | [x] => x
  | x :: rest => x +:+ sep +:+ join sep rest
  end.

(** *** [String(n)] for a number

    A JSON number is held as a double.  [toDouble n] is the double nearest
    to the integer [n >= 0], ties going to the even mantissa of 53 bits;
    [None] is Infinity, which every integer from 2^1024 - 2^970 on rounds
    to. *)
Definition toDouble (n : Z) : option Z :=
  let k := Z.log2 n + 1 - 53 in
  if k <=? 0 then Some n
  else
    let q := n / 2 ^ k in
    let rest := n mod 2 ^ k in
    let half := 2 ^ (k - 1) in
    let q := if (half <? rest) || ((rest =? half) && Z.odd q) then q + 1 else q in
    if 2 ^ 1024 <=? q * 2 ^ k then None else Some (q * 2 ^ k).

Definition numDigits (n : Z) : Z := Z.of_nat (String.length (pretty n)).

(** Reading the decimal [c] back gives the double [v]. *)
Definition roundTrips (v c : Z) : bool :=
  match toDouble c with
  | Some d => d =? v
  | None => false
  end.

(** The decimal with the fewest significant digits that reads back as the
    double [v], the closest to [v] when several do and the even one of two
    equally close: with [k] significant digits the two candidates are the
    multiples of [10 ^ (numDigits v - k)] around [v].  Seventeen digits
    always suffice. *)
Fixpoint shortest (fuel : nat) (k : Z) (v : Z) : Z :=
  match fuel with
  | O => v
  | S fuel =>
      let e := numDigits v - k in
      if e <=? 0 then v
      else
        let p := 10 ^ e in
        let lo := v / p * p in
        let hi := lo + p in
        match roundTrips v lo, roundTrips v hi with
        | true, true =>
            if v - lo <? hi - v then lo
            else if hi - v <? v - lo then hi
            else if Z.even (lo / p) then lo else hi
        | true, false => lo
        | false, true => hi
        | false, false => shortest fuel (k + 1) v
        end
  end.

Fixpoint stripZeros (rev_digits : list ascii) : list ascii :=
  match rev_digits with
  | "0"%char :: rest => stripZeros rest
  | _ => rev_digits
  end.

(** [Number.prototype.toString] on an integer: the shortest decimal that
    reads back as the same double, written out in full up to 21 digits and
    as [d.ddde+N] beyond. *)
Definition numberToString (n : Z) : string :=
  let sign := if n <? 0 then "-"%string else ""%string in
  match toDouble (Z.abs n) with
  | None => sign +:+ "Infinity"
  | Some v =>
      let digits := pretty (shortest 17 1 v) in
      let n := String.length digits in
      if (n <=? 21)%nat then sign +:+ digits
      else
        match rev (stripZeros (rev (list_ascii_of_string digits))) with
        | [] => sign +:+ digits
        | [d] => sign +:+ String d ("e+" +:+ pretty (n - 1)%nat)
        | d :: rest =>
            sign +:+ String d ("." +:+ string_of_list_ascii rest
                               +:+ "e+" +:+ pretty (n - 1)%nat)
        end
  end.

(** [String(v)], the conversion [new Error(v)] applies to its message.  An
    array prints its items separated by commas, [null] items as nothing.  An
    object parsed from JSON prints as "[object Object]" through
    [Object.prototype.toString], unless it has an own [toString] property:
    that property hides the inherited method and its value, coming from
    JSON, is not callable, so the conversion throws a TypeError (the message
    is V8's). *)
Fixpoint toString (v : JSON) : Eval string :=
  match v with
  | JNull => Value "null"%string
  | JBool b => Value (if b then "true" else "false")%string
  | JNum n => Value (numberToString n)
  | JStr s => Value s
  | JArr items =>
      let* parts :=
        (fix each (l : list JSON) : Eval (list string) :=
           match l with
           | [] => Value []
           | i :: rest =>
               let* x := match i with
                         | JNull => Value ""%string
                         | _ => toString i
                         end in
               let* xs := each rest in
               Value (x :: xs)
           end) items in
      Value (join "," parts)
  | JObj fields =>
      match field "toString" fields with
      | Some _ => Throws "Cannot convert object to primitive value"
      | None => Value "[object Object]"%string
      end
  end.

(** [k === v] for an answer key [k]: strict equality with a string holds for
    that very string only. *)
Definition strictEqKey (k : AnswerKey) (v : JSValue) : bool :=
  match v with
  | Some (JStr s) => bool_decide (s = key_string k)
  | _ => false
  end.

(** [['A', 'B', 'C', 'D'].includes(v)] *)
Definition isAnswerKey (v : JSValue) : bool :=
  match v with
  | Some (JStr s) => bool_decide (s ∈ map key_string [KeyA; KeyB; KeyC; KeyD])
  | _ => false
  end.

(** ** [src/unnamed/part_000]: the difficulty-only build *)
Module Legacy.

(** *** [generateTriviaQuestion], lines 135-169 *)

(** What [response.json()] settles to. *)
Inductive Body :=
| Parsed (data : JSON)
| Unparsable (message : string).      (* rejects with a SyntaxError *)

(** What [fetch('/api/generate-trivia', ...)] settles to. *)
Inductive Fetched :=
| NetworkFailure (message : string)   (* rejects with a TypeError *)
| Response (status : Z) (body : Body).

(** [response.ok] *)
Definition ok (status : Z) : bool := (200 <=? status) && (status <=? 299).

(** Lines 153-158, the condition of the [if]. *)
Definition validShape (data : JSValue) : Eval bool :=
  andThen (let* q := getProp data "question" in
           Value (bool_decide (typeof q = "string"%string)))
 (andThen (let* o := getProp data "options" in
           Value (bool_decide (typeof o = "object"%string)))
 (andThen (let* o := getProp data "options" in
           let* a := getProp o "A" in Value (truthy a))
 (andThen (let* o := getProp data "options" in
           let* b := getProp o "B" in Value (truthy b))
 (andThen (let* o := getProp data "options" in
           let* c := getProp o "C" in Value (truthy c))
 (andThen (let* o := getProp data "options" in
           let* d := getProp o "D" in Value (truthy d))
          (let* k := getProp data "correctAnswer" in
           Value (isAnswerKey k))))))).

(** Line 146 and the left operand of line 147:
    [(await response.json().catch(() => null))?.error]. *)
Definition errorPayload (body : Body) : JSValue :=
  let errorData := match body with Parsed v => v | Unparsable _ => JNull end in
  match errorData with
  | JNull => None
  | _ => match getProp (Some errorData) "error" with
         | Value v => v
         | Throws _ => None
         end
  end.

(** Lines 145-149: the message of the [Error] made on [!response.ok], or
    the TypeError that making it throws. *)
Definition serverMessage (status : Z) (body : Body) : Eval string :=
  let payload := errorPayload body in
  if truthy payload
  then match payload with Some v => toString v | None => Value ""%string end
  else Value ("Server responded with status " +:+ pretty status).

(** Lines 137-162, the body of the [try]. *)
Definition tryBlock (r : Fetched) : Eval JSON :=
  match r with
  | NetworkFailure message => Throws message
  | Response status body =>
      if negb (ok status) then
        (* [throw new Error(serverMessage)] *)
        let* message := serverMessage status body in Throws message
      else
        match body with
        | Unparsable message => Throws message
        | Parsed data =>
            let* valid := validShape (Some data) in
            if valid then Value data
            else Throws "The API returned data in an unexpected format."
        end
  end.

(** The whole function: what it returns or throws for each behaviour of
    the network.  Everything the [try] throws is an [Error], so line 166
    takes its message. *)
Definition generateTriviaQuestion (r : Fetched) : Eval JSON :=
  match tryBlock r with
  | Value data => Value data
  | Throws errorMessage => Throws ("Could not load question. " +:+ errorMessage)
  end.

(** *** The component, lines 171-306 *)

(** The seven [useState] cells, lines 172-178.  The question is the
    validated response itself ([data as TriviaQuestion]). *)
Record State := mkState {
  question : option JSON;
  score : Z;
  isLoading : bool;
  error : option string;
  selectedAnswer : option AnswerKey;
  isAnswered : bool;
  difficulty : option Difficulty
}.

Definition initial : State :=
  {| question := None; score := 0; isLoading := false; error := None;
     selectedAnswer := None; isAnswered := false; difficulty := None |}.

Definition setQuestion (v : option JSON) (s : State) : State :=
  {| question := v; score := score s; isLoading := isLoading s;
     error := error s; selectedAnswer := selectedAnswer s;
     isAnswered := isAnswered s; difficulty := difficulty s |}.

Definition setScore (f : Z -> Z) (s : State) : State :=
  {| question := question s; score := f (score s); isLoading := isLoading s;
     error := error s; selectedAnswer := selectedAnswer s;
     isAnswered := isAnswered s; difficulty := difficulty s |}.

Definition setIsLoading (v : bool) (s : State) : State :=
  {| question := question s; score := score s; isLoading := v;
     error := error s; selectedAnswer := selectedAnswer s;
     isAnswered := isAnswered s; difficulty := difficulty s |}.

Definition setError (v : option string) (s : State) : State :=
  {| question := question s; score := score s; isLoading := isLoading s;
     error := v; selectedAnswer := selectedAnswer s;
     isAnswered := isAnswered s; difficulty := difficulty s |}.

Definition setSelectedAnswer (v : option AnswerKey) (s : State) : State :=
  {| question := question s; score := score s; isLoading := isLoading s;
     error := error s; selectedAnswer := v;
     isAnswered := isAnswered s; difficulty := difficulty s |}.

Definition setIsAnswered (v : bool) (s : State) : State :=
  {| question := question s; score := score s; isLoading := isLoading s;
     error := error s; selectedAnswer := selectedAnswer s;
     isAnswered := v; difficulty := difficulty s |}.

Definition setDifficulty (v : option Difficulty) (s : State) : State :=
  {| question := question s; score := score s; isLoading := isLoading s;
     error := error s; selectedAnswer := selectedAnswer s;
     isAnswered := isAnswered s; difficulty := v |}.

(** [fetchNewQuestion], lines 180-198.  The request is the difficulty,
    the one thing [JSON.stringify({ difficulty })] sends. *)
Definition fetchNewQuestion_start (s : State) : State * option Difficulty :=
  if negb (truthy_obj (difficulty s)) then (s, None)
  else
    let s' := setIsLoading true s in
    let s' := setError None s' in
    let s' := setSelectedAnswer None s' in
    let s' := setIsAnswered false s' in
    let s' := setQuestion None s' in
    (s', difficulty s).

Definition fetchNewQuestion_settle (r : Fetched) (s : State) : State :=
  let s :=
    match generateTriviaQuestion r with
    | Value newQuestion => setQuestion (Some newQuestion) s
    | Throws errorMessage => setError (Some errorMessage) s
    end in
  setIsLoading false s.

(** Lines 206-214. *)
Definition handleAnswerSelect (answer : AnswerKey) (s : State) : State :=
  if isAnswered s then s
  else
    let s' := setSelectedAnswer (Some answer) s in
    let s' := setIsAnswered true s' in
    (* [answer === question?.correctAnswer] *)
    let correct :=
      match question s with
      | None => None
      | Some q => match getProp (Some q) "correctAnswer" with
                  | Value v => v
                  | Throws _ => None
                  end
      end in
    if strictEqKey answer correct
    then setScore (fun prevScore => prevScore + 1) s'
    else s'.

(** Lines 216-219. *)
Definition handleDifficultySelect (selectedDifficulty : Difficulty) (s : State) : State :=
  let s := setScore (fun _ => 0) s in
  setDifficulty (Some selectedDifficulty) s.

(** The effect of lines 200-204. *)
Definition fetchEffect (prev cur : State) : State * option Difficulty :=
  if bool_decide (difficulty prev = difficulty cur) then (cur, None)
  else if truthy_obj (difficulty cur) then fetchNewQuestion_start cur
       else (cur, None).

(** [renderContent], lines 221-263. *)
Inductive Content :=
| DifficultySelector
| LoadingSpinner
| ErrorPanel (message : string) (retryDisabled : bool)  (* Try Again calls fetchNewQuestion *)
| QuizCard (question : JSON) (selectedAnswer : option AnswerKey) (isAnswered : bool)
| Nothing.

Definition renderContent (s : State) : Content :=
  if negb (truthy_obj (difficulty s)) then DifficultySelector
  else if isLoading s && negb (truthy_obj (question s)) then LoadingSpinner
  else if truthy_string (error s) then
    ErrorPanel (default ""%string (error s)) (isLoading s)
  else match question s with
       | Some q => QuizCard q (selectedAnswer s) (isAnswered s)
       | None => Nothing
       end.

(** The other controls: the Next Question button of lines 281-291 and
    the Change Difficulty button of lines 295-299. *)
Definition nextButtonEnabled (s : State) : bool :=
  truthy_obj (difficulty s) && negb (truthy_string (error s)) && negb (isLoading s).

Definition showsChangeDifficulty (s : State) : bool := truthy_obj (difficulty s).

(** The component and the requests awaiting their result, numbered in
    order of issue. *)
Record Sys := mkSys {
  ui : State;
  inflight : list (nat * Difficulty);
  issued : nat
}.

Definition boot : Sys := {| ui := initial; inflight := []; issued := 0 |}.

Inductive Event :=
| SelectDifficulty (d : Difficulty)
| SelectAnswer (k : AnswerKey)
| NextQuestion
| TryAgain
| ChangeDifficulty
| FetchSettled (id : nat) (r : Fetched).

Definition enabled (e : Event) (w : Sys) : bool :=
  match e, renderContent (ui w) with
  | SelectDifficulty _, DifficultySelector => true
  | SelectAnswer _, QuizCard _ _ isAnswered => negb isAnswered   (* [disabled={isAnswered}] *)
  | TryAgain, ErrorPanel _ retryDisabled => negb retryDisabled
  | NextQuestion, _ => nextButtonEnabled (ui w)
  | ChangeDifficulty, _ => showsChangeDifficulty (ui w)
  | FetchSettled id _, _ => bool_decide (id ∈ (inflight w).*1)
  | _, _ => false
  end.

Definition handler (e : Event) (s : State) : State * option Difficulty :=
  match e with
  | SelectDifficulty d => (handleDifficultySelect d s, None)
  | SelectAnswer k => (handleAnswerSelect k s, None)
  | NextQuestion | TryAgain => fetchNewQuestion_start s
  | ChangeDifficulty => (setDifficulty None s, None)
  | FetchSettled _ r => (fetchNewQuestion_settle r s, None)
  end.

Definition issue (r : option Difficulty) (w : list (nat * Difficulty) * nat)
  : list (nat * Difficulty) * nat :=
  match r with
  | Some r => (w.1 ++ [(w.2, r)], S w.2)
  | None => w
  end.

Definition settle_request (e : Event) (l : list (nat * Difficulty)) : list (nat * Difficulty) :=
  match e with
  | FetchSettled id _ => filter (fun p => p.1 <> id) l
  | _ => l
  end.

Definition step (e : Event) (w : Sys) : Sys :=
  if enabled e w then
    let '(s1, r1) := handler e (ui w) in
    let '(s2, r2) := fetchEffect (ui w) s1 in
    let '(reqs, n) := issue r2 (issue r1 (settle_request e (inflight w), issued w)) in
    {| ui := s2; inflight := reqs; issued := n |}
  else w.

Definition run (es : list Event) (w : Sys) : Sys :=
  fold_left (fun w e => step e w) es w.

Definition reachable (w : Sys) : Prop := exists es, w = run es boot.

End Legacy.

(** ** [src/service-worker.js] *)
Module ServiceWorker.

(** [s.includes(sub)] *)
Fixpoint includes (sub s : string) : bool :=
  String.prefix sub s ||
  match s with
  | EmptyString => false
  | String _ rest => includes sub rest
  end.

Definition CACHE_NAME : string := "ai-trivia-quiz-v5".

Definition urlsToCache : list string :=
  ["/"; "/index.html"; "/index.tsx"; "/App.tsx"; "/manifest.json";
   "/icon.svg"; "https://cdn.tailwindcss.com"]%string.

Record Request := mkRequest { method : string; url : string }.
Record Response := mkResponse { status : Z; content : string }.

(** The URL without its fragment, the part from the first [#] on. *)
Fixpoint stripFragment (u : string) : string :=
  match u with
  | EmptyString => EmptyString
  | String c rest =>
      if bool_decide (c = "#"%char) then EmptyString
      else String c (stripFragment rest)
  end.

(** What a cache compares requests by: [cache.match] and [cache.put] take
    the URL of a GET request with its fragment excluded. *)
Definition cacheKey (request : Request) : string := stripFragment (url request).

(** A cache maps the key of a stored request to its response; the cache
    storage keeps its caches by name, in order of creation. *)
Definition CacheStorage := list (string * gmap string Response).

(** [caches.match(request)]: the first cache, in order of creation, that
    holds the request. *)
Fixpoint cachesMatch (caches : CacheStorage) (request : Request) : option Response :=
  match caches with
  | [] => None
  | (_, cache) :: rest =>
      match cache !! cacheKey request with
      | Some response => Some response
      | None => cachesMatch rest request
      end
  end.

(** [caches.open(name).then(cache => cache.put(request, response))]: the
    cache is created when it does not exist. *)
Fixpoint cachesPut (name : string) (request : Request) (response : Response)
    (caches : CacheStorage) : CacheStorage :=
  match caches with
  | [] => [(name, {[ cacheKey request := response ]})]
  | (n, cache) :: rest =>
      if bool_decide (n = name)
      then (n, <[ cacheKey request := response ]> cache) :: rest
      else (n, cache) :: cachesPut name request response rest
  end.

(** What the handler does with the event. *)
Inductive Reply :=
| NotHandled                                (* returns without [respondWith] *)
| RespondWith (response : option Response). (* [None]: the promise rejects *)

(** The operations the handler performs, in order. *)
Inductive Op :=
| CacheLookup (request : Request)
| NetworkFetch (request : Request)
| CacheStore (name : string) (request : Request) (response : Response).

Section Handlers.

(** The network: what [fetch(request)] resolves to, [None] when it rejects. *)
Variable network : Request -> option Response.

(** The [fetch] listener, lines 23-55. *)
Definition onFetch (caches : CacheStorage) (request : Request)
  : Reply * CacheStorage * list Op :=
  if negb (bool_decide (method request = "GET"%string)) then
    (NotHandled, caches, [])
  else if includes "/api/" (url request) then
    (RespondWith (network request), caches, [NetworkFetch request])
  else
    match cachesMatch caches request with
    | Some response =>
        (RespondWith (Some response), caches, [CacheLookup request])
    | None =>
        match network request with
        | Some networkResponse =>
            if status networkResponse =? 200 then
              (RespondWith (Some networkResponse),
               cachesPut CACHE_NAME request networkResponse caches,
               [CacheLookup request; NetworkFetch request;
                CacheStore CACHE_NAME request networkResponse])
            else
              (RespondWith (Some networkResponse), caches,
               [CacheLookup request; NetworkFetch request])
        | None =>
            (RespondWith None, caches,
             [CacheLookup request; NetworkFetch request])
        end
    end.

(** The [activate] listener, lines 57-70: every cache whose name is not
    on the whitelist is deleted. *)
Definition onActivate (caches : CacheStorage) : CacheStorage :=
  let cacheWhitelist := [CACHE_NAME] in
  filter (fun c => c.1 ∈ cacheWhitelist) caches.

End Handlers.

Definition touchesCache (o : Op) : bool :=
  match o with
  | CacheLookup _ | CacheStore _ _ _ => true
  | NetworkFetch _ => false
  end.

End ServiceWorker.

(** * Scenarios and the notions the properties are stated with *)

Section AppNotions.
Import App.

(** The question of the scenarios of the specification. *)
Definition twoPlusTwo : TriviaQuestion.t :=
  TriviaQuestion.mk "2+2?" (TriviaQuestion.mkOptions "3" "4" "5" "6") KeyB.

(** A round in progress: category and difficulty chosen, the question
    delivered, the timer running. *)
Definition roundOpen : Sys :=
  run [SelectCategory "Science"; SelectDifficulty Easy;
       FetchSettled 0 (Fulfilled twoPlusTwo)] boot.

(** No selection without the answered flag. *)
Definition selection_answered (s : State) : Prop :=
  selectedAnswer s <> None -> isAnswered s = true.

(** The interval is registered exactly when the timer effect says so. *)
Definition timer_consistent (w : Sys) : Prop :=
  interval w = registers (timerEffect (ui w)).

(** Events that change neither category nor difficulty and call no
    [fetchNewQuestion]: after the handler only the timer effect runs. *)
Definition quiet (e : Event) : bool :=
  match e with
  | SelectAnswer _ | TimerTick | FetchSettled _ _ => true
  | _ => false
  end.

(** After every turn of the loop the timer effect has run to quiescence:
    no committed state is waiting for [TimeUp]. *)
Definition timer_settled (w : Sys) : Prop := timerEffect (ui w) <> TimeUp.

(** While a request is loading there is no question. *)
Definition loading_blank (s : State) : Prop :=
  isLoading s = true -> question s = None.

(** The timer effect registers nothing: the round is answered, or there is
    no question. *)
Definition idle (s : State) : Prop :=
  isAnswered s = true \/ question s = None.

(** Events that deliver a question. *)
Definition fulfils (e : Event) : bool :=
  match e with
  | FetchSettled _ (Fulfilled _) => true
  | _ => false
  end.

(** The round of [roundOpen], answered with C. *)
Definition roundAnswered : Sys := step (SelectAnswer KeyC) roundOpen.

(** The state in which a response that was still in flight when the
    category was reset has arrived on the category screen. *)
Definition lateArrival : Sys :=
  run [SelectCategory "Science"; SelectDifficulty Easy; ChangeCategory;
       FetchSettled 0 (Fulfilled twoPlusTwo)] boot.

(** The difficulty screen after a category was chosen. *)
Definition difficultyScreen : Sys := run [SelectCategory "Science"] boot.

(** The two requests of the counterexample: Easy is issued first, Hard
    second, after the player changed the difficulty while Easy was still
    loading. *)
Definition twoInFlight : Sys :=
  run [SelectCategory "Science"; SelectDifficulty Easy; ChangeDifficulty;
       SelectDifficulty Hard] boot.

(** The question the Hard request delivers. *)
Definition hardQuestion : TriviaQuestion.t :=
  TriviaQuestion.mk "17*23?" (TriviaQuestion.mkOptions "391" "381" "401" "371") KeyA.

End AppNotions.

Section LegacyNotions.
Import Legacy.

(** No selection without the answered flag, in the difficulty-only build. *)
Definition legacy_selection_answered (s : State) : Prop :=
  selectedAnswer s <> None -> isAnswered s = true.

End LegacyNotions.

(** The card of the difficulty-only build with the question of the
    scenarios on it. *)
Definition twoPlusTwoData : JSON :=
  JObj [("question", JStr "2+2?");
        ("options", JObj [("A", JStr "3"); ("B", JStr "4");
                          ("C", JStr "5"); ("D", JStr "6")]);
        ("correctAnswer", JStr "B")]%string.

(** A round in progress in the difficulty-only build. *)
Definition legacyRoundOpen : Legacy.Sys :=
  Legacy.run [Legacy.SelectDifficulty Easy;
              Legacy.FetchSettled 0 (Legacy.Response 200 (Legacy.Parsed twoPlusTwoData))]
             Legacy.boot.

(** The shape the validation of lines 153-158 lets through: an object whose
    [question] is a string, whose [options] is an object with a truthy value
    under each of A, B, C and D, and whose [correctAnswer] is one of the
    four keys. *)
Definition acceptedShape (data : JSON) : Prop :=
  exists fields prompt ofields a b c d k,
    data = JObj fields /\
    field "question" fields = Some (JStr prompt) /\
    field "options" fields = Some (JObj ofields) /\
    field "A" ofields = Some a /\ truthy (Some a) = true /\
    field "B" ofields = Some b /\ truthy (Some b) = true /\
    field "C" ofields = Some c /\ truthy (Some c) = true /\
    field "D" ofields = Some d /\ truthy (Some d) = true /\
    field "correctAnswer" fields = Some (JStr (key_string k)).

(** A response with an empty prompt and options that are not texts. *)
Definition oddButAccepted : JSON :=
  JObj [("question", JStr "");
        ("options", JObj [("A", JNum 3); ("B", JBool true);
                          ("C", JArr []); ("D", JObj [])]);
        ("correctAnswer", JStr "B")]%string.


(** A GET request to the question endpoint. *)
Definition apiRequest : ServiceWorker.Request :=
  ServiceWorker.mkRequest "GET" "https://quiz.example/api/generate-trivia".

(** A network that answers every request with a page. *)
Definition sampleNetwork (r : ServiceWorker.Request) : option ServiceWorker.Response :=
  Some (ServiceWorker.mkResponse 200 (ServiceWorker.url r)).

(** A storage that already holds the current cache. *)
Definition sampleCaches : ServiceWorker.CacheStorage :=
  [(ServiceWorker.CACHE_NAME,
    {[ "/index.html"%string := ServiceWorker.mkResponse 200 "<html>" ]})].

(** * The rest of the code *)

(** ** The quiz card of [src/unnamed/part_000], lines 17-77

    The card reads [correctAnswer] off the question object it is given, and
    compares it with [===] to the key of each button (a key of the [options]
    object) and to [selectedAnswer]. *)
Module QuizCard.

Definition baseClass : string :=
  "w-full text-left p-4 my-2 rounded-lg border-2 transition-all duration-300 ease-in-out transform focus:outline-none focus:ring-2 focus:ring-offset-2 focus:ring-offset-transparent".

(** The four results of [getButtonClass], lines 30, 38, 43 and 47. *)
Definition idleClass : string :=
  baseClass +:+ " bg-white/20 border-transparent hover:bg-white/30 hover:scale-105".
Definition correctClass : string :=
  baseClass +:+ " bg-green-500 border-green-400 scale-105 shadow-lg ring-2 ring-white animate-correct-pulse".
Definition incorrectClass : string :=
  baseClass +:+ " bg-red-500 border-red-400 animate-incorrect-shake".
Definition fadedClass : string :=
  baseClass +:+ " bg-white/10 border-transparent opacity-60".

(** [optionKey === v] for a key of the options object. *)
Definition strictEqString (optionKey : string) (v : JSValue) : bool :=
  match v with
  | Some (JStr s) => bool_decide (optionKey = s)
  | _ => false
  end.

(** [getButtonClass], lines 26-48. *)
Definition getButtonClass (correctAnswer : JSValue)
    (selectedAnswer : option AnswerKey) (isAnswered : bool)
    (optionKey : string) : string :=
  if negb isAnswered then idleClass
  else
    let isCorrect := strictEqString optionKey correctAnswer in
    let isSelected :=
      match selectedAnswer with
      | Some k => bool_decide (optionKey = key_string k)
      | None => false
      end in
    if isCorrect then correctClass
    else if isSelected && negb isCorrect then incorrectClass
    else fadedClass.

(** The line under the buttons, lines 66-74: nothing before the round is
    answered, then "Correct!" or "Sorry, that's not right. The correct
    answer was ..." with the correct answer in it. *)
Inductive Feedback :=
| NoFeedback
| Congratulation
| Sorry (correctAnswer : JSValue).

(** [selectedAnswer === correctAnswer] *)
Definition selectedIsCorrect (selectedAnswer : option AnswerKey)
    (correctAnswer : JSValue) : bool :=
  match selectedAnswer with
  | Some k => strictEqKey k correctAnswer
  | None => match correctAnswer with Some JNull => true | _ => false end
  end.

Definition feedback (correctAnswer : JSValue)
    (selectedAnswer : option AnswerKey) (isAnswered : bool) : Feedback :=
  if isAnswered then
    if selectedIsCorrect selectedAnswer correctAnswer then Congratulation
    else Sorry correctAnswer
  else NoFeedback.

(** The [correctAnswer] the card destructures from its question, line 25. *)
Definition correctAnswerOf (question : JSON) : JSValue :=
  match getProp (Some question) "correctAnswer" with
  | Value v => v
  | Throws _ => None
  end.

End QuizCard.

(** ** The [install] listener of [src/service-worker.js], lines 12-21 *)
Section Install.

(** The network, and the resolution of the strings of [urlsToCache] against
    the location of the worker. *)
Variable network : ServiceWorker.Request -> option ServiceWorker.Response.
Variable resolve : string -> string.

(** [caches.open(name)]: the cache is created, last in the storage, when
    there is none of that name. *)
Definition cachesOpen (name : string) (caches : ServiceWorker.CacheStorage)
  : ServiceWorker.CacheStorage :=
  if bool_decide (name ∈ caches.*1) then caches else caches ++ [(name, ∅)].

(** The requests [cache.addAll(urlsToCache)] makes. *)
Definition installRequests : list ServiceWorker.Request :=
  map (fun u => ServiceWorker.mkRequest "GET" (resolve u)) ServiceWorker.urlsToCache.

(** What [addAll] fetches for one request: it rejects when the fetch does,
    and when the response status is not in the range 200-299 or is 206. *)
Definition addAllFetch (request : ServiceWorker.Request)
  : option (ServiceWorker.Request * ServiceWorker.Response) :=
  match network request with
  | Some response =>
      if (200 <=? ServiceWorker.status response)
         && (ServiceWorker.status response <=? 299)
         && negb (ServiceWorker.status response =? 206)
      then Some (request, response) else None
  | None => None
  end.

(** [cache.addAll]: every request is fetched, and the responses are stored
    only when all of them were fetched and no two requests match each other
    (the browser rejects the batch otherwise).  Responses carry no headers
    here, so the rejection of a [Vary: *] response is outside the model. *)
Definition addAll (name : string) (requests : list ServiceWorker.Request)
    (caches : ServiceWorker.CacheStorage) : option ServiceWorker.CacheStorage :=
  match mapM addAllFetch requests with
  | Some entries =>
      if bool_decide (NoDup (map ServiceWorker.cacheKey requests))
      then Some (foldl (fun cs e => ServiceWorker.cachesPut name e.1 e.2 cs)
                       caches entries)
      else None
  | None => None
  end.

(** The listener: whether the installation succeeds, and the storage it
    leaves. *)
Definition onInstall (caches : ServiceWorker.CacheStorage)
  : bool * ServiceWorker.CacheStorage :=
  let opened := cachesOpen ServiceWorker.CACHE_NAME caches in
  match addAll ServiceWorker.CACHE_NAME installRequests opened with
  | Some stored => (true, stored)
  | None => (false, opened)
  end.

End Install.

(** ** Notions for the further properties *)

(** A running countdown: a question on an unanswered round, not loading. *)
Definition counting (s : App.State) : Prop :=
  App.question s <> None /\ App.isAnswered s = false /\ App.isLoading s = false.

(** Events of the difficulty-only build that deliver a question. *)
Definition legacy_fulfils (e : Legacy.Event) : bool :=
  match e with
  | Legacy.FetchSettled _ r =>
      match Legacy.generateTriviaQuestion r with
      | Value _ => true
      | Throws _ => false
      end
  | _ => false
  end.

(** A difficulty is chosen only under a category. *)
Definition difficulty_under_category (s : App.State) : Prop :=
  truthy_obj (App.difficulty s) = true -> truthy_string (App.category s) = true.

(** The first cache of a name in the storage, the one [caches.open] returns. *)
Fixpoint firstNamed (name : string) (caches : ServiceWorker.CacheStorage)
  : option (gmap string ServiceWorker.Response) :=
  match caches with
  | [] => None
  | (n, cache) :: rest =>
      if bool_decide (n = name) then Some cache else firstNamed name rest
  end.


(** The resolution of the cached URLs for a worker at the root of
    [https://quiz.example]. *)
Definition sampleResolve (u : string) : string :=
  if String.prefix "/" u then "https://quiz.example" +:+ u else u +:+ "/".

(** * The controller of [src/App.tsx] *)
Section AppFacts.
Import App.

(** ** Invariants of the event loop *)

Lemma run_app (es es' : list Event) (w : Sys) :
  run (es ++ es') w = run es' (run es w).
Proof. unfold run. apply fold_left_app. Qed.

Lemma run_invariant (P : Sys -> Prop) :
  (forall e w, P w -> P (step e w)) ->
  forall es w, P w -> P (run es w).
Proof.
  intros Hstep es. induction es as [|e es IH]; intros w Hw; simpl.
  - exact Hw.
  - apply IH, Hstep, Hw.
Qed.

Lemma reachable_invariant (P : Sys -> Prop) :
  P boot -> (forall e w, P w -> P (step e w)) ->
  forall w, reachable w -> P w.
Proof.
  intros Hboot Hstep w [es ->]. now apply run_invariant.
Qed.

Lemma reachable_step e w : reachable w -> reachable (step e w).
Proof.
  intros [es ->]. exists (es ++ [e]). now rewrite run_app.
Qed.

Lemma runTimerEffect_registers s :
  (runTimerEffect s).2 = registers (timerEffect (runTimerEffect s).1).
Proof.
  unfold runTimerEffect. destruct (timerEffect s) eqn:E; simpl; auto; now rewrite E.
Qed.

Lemma step_timer_consistent e w :
  timer_consistent w -> timer_consistent (step e w).
Proof.
  unfold timer_consistent, step. intros Hw.
  destruct (enabled e w); [|exact Hw].
  destruct (handler e (ui w)) as [s1 r1].
  destruct (fetchEffect (ui w) s1) as [s2 r2].
  pose proof (runTimerEffect_registers s2) as H.
  destruct (runTimerEffect s2) as [s3 iv].
  destruct (issue r2 _) as [reqs n]. exact H.
Qed.

Lemma reachable_timer_consistent w : reachable w -> timer_consistent w.
Proof.
  apply (reachable_invariant timer_consistent);
    [reflexivity | apply step_timer_consistent].
Qed.

(** The timer effect touches neither the selection nor the score, and
    raises the answered flag only. *)
Lemma runTimerEffect_fields s :
  let s' := (runTimerEffect s).1 in
  question s' = question s /\ score s' = score s /\
  isLoading s' = isLoading s /\ error s' = error s /\
  selectedAnswer s' = selectedAnswer s /\ category s' = category s /\
  difficulty s' = difficulty s /\ timeLeft s' = timeLeft s /\
  (isAnswered s' = isAnswered s \/
   (isAnswered s = false /\ isAnswered s' = true /\ timeLeft s <= 0)).
Proof.
  unfold runTimerEffect, timerEffect.
  destruct (negb (truthy_obj (question s)) || isAnswered s || isLoading s) eqn:G;
    simpl; [intuition|].
  destruct (Z.leb_spec (timeLeft s) 0); simpl; [|intuition].
  repeat split; try reflexivity. right.
  apply orb_false_elim in G as [G _]. apply orb_false_elim in G as [_ G].
  auto.
Qed.

Lemma fetchNewQuestion_start_fields s :
  let s' := (fetchNewQuestion_start s).1 in
  score s' = score s /\ category s' = category s /\
  difficulty s' = difficulty s /\ timeLeft s' = timeLeft s /\
  (s' = s /\ (fetchNewQuestion_start s).2 = None \/
   (question s' = None /\ isLoading s' = true /\ error s' = None /\
    selectedAnswer s' = None /\ isAnswered s' = false /\
    is_Some (fetchNewQuestion_start s).2)).
Proof.
  unfold fetchNewQuestion_start.
  destruct (difficulty s) as [d|] eqn:Ed; simpl; [|intuition].
  destruct (category s) as [c|] eqn:Ec; simpl; [|intuition].
  destruct (bool_decide (c = ""%string)); simpl; [intuition|].
  repeat split; auto. right. repeat split; eauto.
Qed.

Lemma fetchEffect_fields prev cur :
  let s' := (fetchEffect prev cur).1 in
  score s' = score cur /\ category s' = category cur /\
  difficulty s' = difficulty cur /\ timeLeft s' = timeLeft cur /\
  (s' = cur /\ (fetchEffect prev cur).2 = None \/
   (question s' = None /\ isLoading s' = true /\ error s' = None /\
    selectedAnswer s' = None /\ isAnswered s' = false /\
    is_Some (fetchEffect prev cur).2)).
Proof.
  unfold fetchEffect.
  destruct (bool_decide _); [simpl; intuition|].
  destruct (truthy_obj (difficulty cur) && truthy_string (category cur));
    [apply fetchNewQuestion_start_fields | simpl; intuition].
Qed.

Lemma fetchEffect_same prev cur :
  difficulty prev = difficulty cur -> category prev = category cur ->
  fetchEffect prev cur = (cur, None).
Proof.
  intros Hd Hc. unfold fetchEffect. now rewrite bool_decide_eq_true_2.
Qed.

Lemma handleAnswerSelect_fields k s :
  let s' := handleAnswerSelect k s in
  question s' = question s /\ isLoading s' = isLoading s /\
  error s' = error s /\ category s' = category s /\
  difficulty s' = difficulty s /\ timeLeft s' = timeLeft s.
Proof.
  unfold handleAnswerSelect. destruct (isAnswered s); [intuition|].
  destruct (bool_decide _); simpl; intuition.
Qed.

Lemma step_quiet e w :
  quiet e = true -> enabled e w = true ->
  step e w =
    {| ui := (runTimerEffect (handler e (ui w)).1).1;
       interval := (runTimerEffect (handler e (ui w)).1).2;
       inflight := settle_request e (inflight w);
       issued := issued w |}.
Proof.
  intros Hq He. unfold step. rewrite He.
  assert (Hh : (handler e (ui w)).2 = None /\
               difficulty (ui w) = difficulty (handler e (ui w)).1 /\
               category (ui w) = category (handler e (ui w)).1).
  { destruct e; try discriminate; simpl.
    - pose proof (handleAnswerSelect_fields k (ui w)). simpl in *. intuition.
    - auto.
    - destruct r; auto. }
  destruct (handler e (ui w)) as [s1 r1]. simpl in *.
  destruct Hh as (-> & Hd & Hc). rewrite (fetchEffect_same _ _ Hd Hc).
  destruct (runTimerEffect s1) as [s3 iv]. reflexivity.
Qed.

Lemma handler_selection_answered e s :
  selection_answered s -> selection_answered (handler e s).1.
Proof.
  unfold selection_answered. destruct e; simpl; auto.
  - unfold handleAnswerSelect. destruct (isAnswered s) eqn:E; [auto|].
    destruct (bool_decide _); reflexivity.
  - pose proof (fetchNewQuestion_start_fields s) as (_ & _ & _ & _ & H).
    destruct H as [[-> _]|(_ & _ & _ & Hs & _)]; [auto|]. now rewrite Hs.
  - destruct r; auto.
Qed.

Lemma step_selection_answered e w :
  selection_answered (ui w) -> selection_answered (ui (step e w)).
Proof.
  intros Hw. unfold step. destruct (enabled e w); [|exact Hw].
  pose proof (handler_selection_answered e _ Hw) as H1.
  destruct (handler e (ui w)) as [s1 r1]. simpl in H1.
  pose proof (fetchEffect_fields (ui w) s1) as (_ & _ & _ & _ & H2).
  destruct (fetchEffect (ui w) s1) as [s2 r2]. simpl in H2.
  pose proof (runTimerEffect_fields s2) as (_ & _ & _ & _ & Hsel & _ & _ & _ & Hans).
  destruct (runTimerEffect s2) as [s3 iv]. simpl in *.
  destruct (issue r2 _) as [reqs n]. simpl.
  unfold selection_answered in *. rewrite Hsel. intros Hne.
  destruct Hans as [->|(_ & -> & _)]; [|reflexivity].
  destruct H2 as [[-> _]|(_ & _ & _ & Hs & _)]; [auto|]. now rewrite Hs in Hne.
Qed.

Lemma reachable_selection_answered w :
  reachable w -> selection_answered (ui w).
Proof.
  apply (reachable_invariant (fun w => selection_answered (ui w))).
  - intros H. now elim H.
  - apply step_selection_answered.
Qed.

(** Once the round is answered, answer clicks and ticks change nothing. *)
Lemma answered_terminal w k :
  timer_consistent w -> isAnswered (ui w) = true ->
  step (SelectAnswer k) w = w /\ step TimerTick w = w.
Proof.
  unfold timer_consistent. intros Hc Ha. split.
  - destruct (enabled (SelectAnswer k) w) eqn:He;
      [|unfold step; now rewrite He].
    rewrite step_quiet by auto. simpl.
    unfold handleAnswerSelect, runTimerEffect. rewrite Ha.
    revert Hc. unfold timerEffect. rewrite Ha, orb_true_r. simpl.
    destruct w; simpl. now intros ->.
  - unfold step. simpl. rewrite Hc. unfold timerEffect.
    now rewrite Ha, orb_true_r.
Qed.

Lemma runTimerEffect_settled s : timerEffect (runTimerEffect s).1 <> TimeUp.
Proof.
  unfold runTimerEffect. destruct (timerEffect s) eqn:E; simpl; try congruence.
  unfold timerEffect. simpl. now rewrite orb_true_r.
Qed.

Lemma reachable_timer_settled w : reachable w -> timer_settled w.
Proof.
  apply (reachable_invariant timer_settled); [discriminate|].
  intros e w' Hw'. unfold timer_settled, step.
  destruct (enabled e w'); [|exact Hw'].
  destruct (handler e (ui w')) as [s1 r1].
  destruct (fetchEffect (ui w') s1) as [s2 r2].
  pose proof (runTimerEffect_settled s2) as H.
  destruct (runTimerEffect s2) as [s3 iv].
  destruct (issue r2 _) as [reqs n]. exact H.
Qed.

Lemma runTimerEffect_answered s :
  isAnswered s = true -> runTimerEffect s = (s, false).
Proof.
  intros Ha. unfold runTimerEffect, timerEffect. now rewrite Ha, orb_true_r.
Qed.

(** C1.  In every reachable state that shows an unanswered question, no
    outcome is recorded yet and the countdown is running; an answer [k]
    ends the round with outcome correct or incorrect and adds exactly 1 to
    the score if and only if [k] is the question's [correctAnswer]; the
    tick that takes [timeLeft] to 0 ends the round with [isAnswered] set,
    no selection and the score unchanged; and once the round has ended,
    further answers and ticks change nothing, so the outcome is the only
    one of the round. *)
Theorem round_outcome (w : Sys) (q : TriviaQuestion.t) :
  reachable w ->
  question (ui w) = Some q ->
  isAnswered (ui w) = false ->
  isLoading (ui w) = false ->
  (outcome (ui w) = None /\ selectedAnswer (ui w) = None /\
   interval w = true /\ 0 < timeLeft (ui w)) /\
  (forall k,
      let s' := handleAnswerSelect k (ui w) in
      isAnswered s' = true /\ selectedAnswer s' = Some k /\
      outcome s' =
        Some (if bool_decide (k = TriviaQuestion.correctAnswer q)
              then CorrectAnswer else IncorrectAnswer) /\
      (score s' = score (ui w) + 1 <-> k = TriviaQuestion.correctAnswer q) /\
      (k <> TriviaQuestion.correctAnswer q -> score s' = score (ui w)) /\
      (score s' = score (ui w) + 1 <-> outcome s' = Some CorrectAnswer) /\
      (showsQuizCard (ui w) = true ->
       let w' := step (SelectAnswer k) w in
       ui w' = s' /\
       forall k', step (SelectAnswer k') w' = w' /\ step TimerTick w' = w')) /\
  (timeLeft (ui w) = 1 ->
   let w' := step TimerTick w in
   timeLeft (ui w') = 0 /\ isAnswered (ui w') = true /\
   selectedAnswer (ui w') = None /\ outcome (ui w') = Some TimedOut /\
   score (ui w') = score (ui w) /\
   forall k', step (SelectAnswer k') w' = w' /\ step TimerTick w' = w').
Proof.
  intros Hr Hq Ha Hl.
  pose proof (reachable_selection_answered w Hr) as Hsel.
  pose proof (reachable_timer_consistent w Hr) as Htc.
  pose proof (reachable_timer_settled w Hr) as Hts.
  assert (Hnone : selectedAnswer (ui w) = None).
  { destruct (selectedAnswer (ui w)) eqn:E; [|reflexivity].
    unfold selection_answered in Hsel. rewrite E in Hsel.
    rewrite Hsel in Ha; [discriminate | discriminate]. }
  assert (Hpos : 0 < timeLeft (ui w) /\ interval w = true).
  { unfold timer_settled, timer_consistent in *. revert Hts Htc.
    unfold timerEffect. rewrite Hq, Ha, Hl. simpl.
    destruct (Z.leb_spec (timeLeft (ui w)) 0); [congruence|]. auto. }
  destruct Hpos as [Hpos Hiv].
  split; [|split].
  - unfold outcome. rewrite Hq, Ha. auto.
  - intros k s'.
    assert (Hs' : isAnswered s' = true /\ selectedAnswer s' = Some k /\
                  question s' = Some q /\
                  score s' = score (ui w) +
                    (if bool_decide (k = TriviaQuestion.correctAnswer q) then 1 else 0)).
    { subst s'. unfold handleAnswerSelect. rewrite Ha, Hq. simpl.
      destruct (decide (k = TriviaQuestion.correctAnswer q)) as [->|Hne].
      - rewrite !bool_decide_eq_true_2 by reflexivity. simpl. auto.
      - rewrite !bool_decide_eq_false_2 by congruence. simpl.
        repeat split; auto. lia. }
    destruct Hs' as (Hans & Hsl & Hqs & Hsc).
    assert (Hout : outcome s' =
        Some (if bool_decide (k = TriviaQuestion.correctAnswer q)
              then CorrectAnswer else IncorrectAnswer)).
    { unfold outcome. rewrite Hqs, Hans, Hsl. now destruct (bool_decide _). }
    assert (Hstep : showsQuizCard (ui w) = true ->
                    ui (step (SelectAnswer k) w) = s').
    { intros Hshow. rewrite step_quiet by auto. simpl. fold s'.
      now rewrite runTimerEffect_answered. }
    split_and!; auto.
    + rewrite Hsc. destruct (bool_decide_reflect (k = TriviaQuestion.correctAnswer q));
        split; intros; auto; try lia; congruence.
    + intros Hne. rewrite Hsc. rewrite bool_decide_eq_false_2 by auto. lia.
    + rewrite Hout, Hsc. destruct (bool_decide _); split; intros; auto; try lia.
      discriminate.
    + intros Hshow w'. split; [now apply Hstep|].
      intros k'. apply answered_terminal.
      * apply reachable_timer_consistent, reachable_step, Hr.
      * subst w'. now rewrite Hstep.
  - intros Ht w'.
    assert (Hw' : ui w' = setIsAnswered true (tick (ui w))).
    { subst w'. rewrite step_quiet by auto. simpl.
      unfold runTimerEffect, timerEffect. simpl. rewrite Hq, Ha, Hl, Ht. reflexivity. }
    assert (Hfin : forall k', step (SelectAnswer k') w' = w' /\ step TimerTick w' = w').
    { intros k'. apply answered_terminal.
      - apply reachable_timer_consistent, reachable_step, Hr.
      - now rewrite Hw'. }
    rewrite Hw'. unfold outcome. simpl. rewrite Hq, Hnone, Ht.
    split_and!; auto.
Qed.

Lemma round_outcome_witness :
  exists w q,
    reachable w /\ question (ui w) = Some q /\
    isAnswered (ui w) = false /\ isLoading (ui w) = false /\
    score (handleAnswerSelect KeyB (ui w)) = score (ui w) + 1 /\
    score (handleAnswerSelect KeyC (ui w)) = score (ui w).
Proof.
  exists roundOpen, twoPlusTwo.
  assert (Hr : reachable roundOpen) by (exists [SelectCategory "Science"; SelectDifficulty Easy; FetchSettled 0 (Fulfilled twoPlusTwo)]; reflexivity).
  destruct (round_outcome roundOpen twoPlusTwo Hr eq_refl eq_refl eq_refl)
    as (_ & Hk & _).
  split; [exact Hr|].
  split; [vm_compute; reflexivity|].
  split; [vm_compute; reflexivity|].
  split; [vm_compute; reflexivity|].
  split.
  - destruct (Hk KeyB) as (_ & _ & _ & Hiff & _). apply Hiff. reflexivity.
  - destruct (Hk KeyC) as (_ & _ & _ & _ & Hne & _). apply Hne. discriminate.
Defined.

(** ** Starting a fetch *)

Lemma fetchNewQuestion_start_request s r :
  (fetchNewQuestion_start s).2 = Some r ->
  difficulty s = Some (req_difficulty r) /\ category s = Some (req_category r).
Proof.
  unfold fetchNewQuestion_start.
  destruct (difficulty s) as [d|], (category s) as [c|]; simpl;
    try discriminate.
  destruct (bool_decide (c = ""%string)); simpl; [discriminate|].
  intros [= <-]. auto.
Qed.

Lemma handler_request e s r :
  (handler e s).2 = Some r -> e = NextQuestion.
Proof. destruct e; simpl; try discriminate; auto. Qed.

(** A turn that issues a request leaves the state [fetchNewQuestion]
    prepares before its [await], with that request in flight. *)
Lemma step_issues e w :
  issued (step e w) <> issued w ->
  let w' := step e w in
  question (ui w') = None /\ isLoading (ui w') = true /\
  error (ui w') = None /\ selectedAnswer (ui w') = None /\
  isAnswered (ui w') = false /\ interval w' = false /\
  exists r,
    inflight w' = inflight w ++ [(issued w, r)] /\
    issued w' = S (issued w) /\
    difficulty (ui w') = Some (req_difficulty r) /\
    category (ui w') = Some (req_category r).
Proof.
  unfold step. destruct (enabled e w) eqn:He; [|congruence].
  pose proof (fetchNewQuestion_start_fields (ui w)) as Hs.
  pose proof (fetchNewQuestion_start_request (ui w)) as Hr.
  pose proof (handler_request e (ui w)) as Hh.
  destruct (handler e (ui w)) as [s1 r1] eqn:E1. simpl in Hh.
  pose proof (fetchEffect_fields (ui w) s1) as Hf.
  destruct (fetchEffect (ui w) s1) as [s2 r2] eqn:E2. simpl in Hf.
  assert (Hcases :
    (r1 = None /\ r2 = None) \/
    (exists r, settle_request e (inflight w) = inflight w /\
       (issue r2 (issue r1 (settle_request e (inflight w), issued w))) =
         (inflight w ++ [(issued w, r)], S (issued w)) /\
       question s2 = None /\ isLoading s2 = true /\ error s2 = None /\
       selectedAnswer s2 = None /\ isAnswered s2 = false /\
       difficulty s2 = Some (req_difficulty r) /\
       category s2 = Some (req_category r))).
  { destruct r1 as [r|].
    - specialize (Hh r eq_refl). subst e. simpl in E1.
      rewrite E1 in Hs, Hr. simpl in Hs, Hr.
      destruct Hs as (_ & Hc & Hd & _ & [[_ ?]|(? & ? & ? & ? & ? & _)]);
        [discriminate|].
      rewrite fetchEffect_same in E2 by auto. injection E2 as <- <-.
      right. exists r. destruct (Hr r eq_refl) as [Hrd Hrc].
      simpl. split_and!; auto; congruence.
    - destruct r2 as [r|]; [right|left; auto]. exists r.
      destruct Hf as (_ & Hc & Hd & _ & [[_ ?]|(? & ? & ? & ? & ? & _)]);
        [discriminate|].
      assert (Hq : fetchNewQuestion_start s1 = (s2, Some r)).
      { revert E2. unfold fetchEffect.
        destruct (bool_decide _); [discriminate|].
        destruct (_ && _); [auto|discriminate]. }
      pose proof (fetchNewQuestion_start_request s1 r) as Hr1.
      rewrite Hq in Hr1. destruct (Hr1 eq_refl) as [Hrd Hrc].
      assert (He' : settle_request e (inflight w) = inflight w).
      { destruct e; try reflexivity. simpl in E1. injection E1 as <-.
        revert E2. unfold fetchEffect.
        rewrite bool_decide_eq_true_2; [discriminate|]. now destruct r0. }
      rewrite He'. simpl. split_and!; auto; congruence. }
  destruct Hcases as [[-> ->]|(r & He' & Hi & Hq & Hl & Her & Hsl & Han & Hd & Hc)].
  - simpl. destruct (runTimerEffect s2). simpl. congruence.
  - rewrite Hi. intros _.
    assert (Ht : runTimerEffect s2 = (s2, false)).
    { unfold runTimerEffect, timerEffect. now rewrite Hq. }
    rewrite Ht. simpl. split_and!; auto. exists r. auto.
Qed.

(** ** The idle timer *)

Lemma step_loading_blank e w :
  loading_blank (ui w) -> loading_blank (ui (step e w)).
Proof.
  unfold loading_blank, step. intros Hw.
  destruct (enabled e w); [|exact Hw].
  assert (H1 : isLoading (handler e (ui w)).1 = true ->
               question (handler e (ui w)).1 = None).
  { destruct e; simpl; auto.
    - pose proof (handleAnswerSelect_fields k (ui w)) as (-> & -> & _). auto.
    - pose proof (fetchNewQuestion_start_fields (ui w)) as (_ & _ & _ & _ & H).
      destruct H as [[-> _]|(? & _)]; auto.
    - destruct r; simpl; discriminate. }
  destruct (handler e (ui w)) as [s1 r1]. simpl in H1.
  pose proof (fetchEffect_fields (ui w) s1) as (_ & _ & _ & _ & H2).
  destruct (fetchEffect (ui w) s1) as [s2 r2]. simpl in H2.
  pose proof (runTimerEffect_fields s2) as (Hq & _ & Hl & _).
  destruct (runTimerEffect s2) as [s3 iv]. simpl in *.
  destruct (issue r2 _) as [reqs n]. simpl. rewrite Hq, Hl.
  destruct H2 as [[-> _]|(? & _)]; auto.
Qed.

Lemma reachable_loading_blank w : reachable w -> loading_blank (ui w).
Proof.
  apply (reachable_invariant (fun w => loading_blank (ui w)));
    [discriminate | apply step_loading_blank].
Qed.

Lemma idle_timerEffect s : idle s -> runTimerEffect s = (s, false).
Proof.
  unfold runTimerEffect, timerEffect.
  intros [->| ->]; simpl; [now rewrite orb_true_r | reflexivity].
Qed.

Lemma idle_timerEffect_none s : idle s -> registers (timerEffect s) = false.
Proof.
  unfold timerEffect.
  intros [->| ->]; simpl; [now rewrite orb_true_r | reflexivity].
Qed.

Lemma idle_step e w :
  timer_consistent w -> idle (ui w) -> fulfils e = false ->
  idle (ui (step e w)) /\ timeLeft (ui (step e w)) = timeLeft (ui w).
Proof.
  intros Hc Hi Hf. unfold step.
  destruct (enabled e w) eqn:He; [|auto].
  assert (H1 : idle (handler e (ui w)).1 /\
               timeLeft (handler e (ui w)).1 = timeLeft (ui w)).
  { destruct e; simpl; try (split; [exact Hi || (right; reflexivity) | reflexivity]).
    - split; [|apply handleAnswerSelect_fields].
      unfold handleAnswerSelect. destruct (isAnswered (ui w)) eqn:E; [exact Hi|].
      left. now destruct (bool_decide _).
    - pose proof (fetchNewQuestion_start_fields (ui w)) as (_ & _ & _ & Ht & H).
      split; [|exact Ht].
      destruct H as [[-> _]|(? & _)]; [exact Hi | now right].
    - simpl in He. unfold timer_consistent in Hc. rewrite Hc in He.
      rewrite idle_timerEffect_none in He by exact Hi. discriminate.
    - destruct r; [discriminate|]. split; [exact Hi | reflexivity]. }
  destruct (handler e (ui w)) as [s1 r1]. simpl in H1. destruct H1 as [H1 T1].
  pose proof (fetchEffect_fields (ui w) s1) as (_ & _ & _ & T2 & H2).
  destruct (fetchEffect (ui w) s1) as [s2 r2]. simpl in H2, T2.
  assert (H2' : idle s2).
  { destruct H2 as [[-> _]|(? & _)]; [exact H1 | now right]. }
  rewrite (idle_timerEffect s2 H2').
  destruct (issue r2 _) as [reqs n]. simpl. split; [exact H2' | congruence].
Qed.

Lemma enabled_step_timer_consistent e w :
  enabled e w = true -> timer_consistent (step e w).
Proof.
  intros He. unfold timer_consistent, step. rewrite He.
  destruct (handler e (ui w)) as [s1 r1].
  destruct (fetchEffect (ui w) s1) as [s2 r2].
  pose proof (runTimerEffect_registers s2) as H.
  destruct (runTimerEffect s2) as [s3 iv].
  destruct (issue r2 _) as [reqs n]. exact H.
Qed.

Lemma idle_run es w :
  timer_consistent w -> idle (ui w) ->
  Forall (fun e => fulfils e = false) es ->
  idle (ui (run es w)) /\ timer_consistent (run es w) /\
  timeLeft (ui (run es w)) = timeLeft (ui w).
Proof.
  revert w. induction es as [|e es IH]; intros w Hc Hi Hes; simpl; [auto|].
  inversion Hes as [|? ? He Hes']; subst.
  destruct (idle_step e w Hc Hi He) as [Hi' Ht].
  destruct (IH (step e w) (step_timer_consistent e w Hc) Hi' Hes')
    as (? & ? & ?).
  split_and!; auto; congruence.
Qed.

(** C5.  In every reachable state where the round is answered, or there
    is no question, or a request is loading, the timer effect registers no
    interval, so no tick can fire; and [timeLeft] keeps its value through
    every later sequence of events up to the delivery of the next
    question. *)
Theorem timer_frozen (w : Sys) (es : list Event) :
  reachable w ->
  isAnswered (ui w) = true \/ question (ui w) = None \/ isLoading (ui w) = true ->
  Forall (fun e => fulfils e = false) es ->
  timerEffect (ui w) = NoTimer /\ interval w = false /\
  enabled TimerTick w = false /\ step TimerTick w = w /\
  timeLeft (ui (run es w)) = timeLeft (ui w) /\ interval (run es w) = false.
Proof.
  intros Hr Hw Hes.
  pose proof (reachable_timer_consistent w Hr) as Hc.
  assert (Hi : idle (ui w)).
  { destruct Hw as [H|[H|H]]; [now left | now right|].
    right. now apply reachable_loading_blank. }
  assert (Hn : timerEffect (ui w) = NoTimer).
  { unfold timerEffect.
    destruct Hi as [->| ->]; simpl; [now rewrite orb_true_r | reflexivity]. }
  assert (Hiv : interval w = false).
  { unfold timer_consistent in Hc. now rewrite Hc, Hn. }
  destruct (idle_run es w Hc Hi Hes) as (Hi' & Hc' & Ht).
  split_and!; auto.
  - unfold step. simpl. now rewrite Hiv.
  - unfold timer_consistent in Hc'. rewrite Hc'. now apply idle_timerEffect_none.
Qed.

Lemma timer_frozen_witness :
  timeLeft (ui (run [TimerTick; SelectAnswer KeyB; TimerTick] roundAnswered))
  = timeLeft (ui roundAnswered).
Proof.
  assert (Hr : reachable roundAnswered).
  { exists [SelectCategory "Science"; SelectDifficulty Easy;
            FetchSettled 0 (Fulfilled twoPlusTwo); SelectAnswer KeyC].
    vm_compute. reflexivity. }
  assert (Hes : Forall (fun e => fulfils e = false)
                       [TimerTick; SelectAnswer KeyB; TimerTick]).
  { repeat constructor. }
  apply (timer_frozen roundAnswered _ Hr (or_introl eq_refl) Hes).
Defined.

(** ** Selecting a category or a difficulty *)

(** C2, as stated, fails: the category selector is on screen, selecting a
    category leaves the question that arrived late in place (and its
    countdown running). *)
Lemma category_select_keeps_question :
  enabled (SelectCategory "History") lateArrival = true /\
  question (ui (step (SelectCategory "History") lateArrival)) = Some twoPlusTwo /\
  question (handleCategorySelect "History" (ui lateArrival)) <> None /\
  interval (step (SelectCategory "History") lateArrival) = true.
Proof. vm_compute. split_and!; auto; discriminate. Qed.

(** C2, amended.  Selecting a category sets the category, clears the
    difficulty and resets the score to 0, starts no fetch and leaves the
    question as it was; selecting a difficulty resets the score to 0 and
    sets the difficulty, and the fetch it starts in the same turn clears
    the question, the selection, the answered flag and the error, sets
    [isLoading] and leaves no timer interval registered. *)
Theorem selection_resets_score (wc wd : Sys) (c : string) (d : Difficulty) :
  showsCategorySelector (ui wc) = true ->
  showsDifficultySelector (ui wd) = true ->
  let wc' := step (SelectCategory c) wc in
  let wd' := step (SelectDifficulty d) wd in
  (category (ui wc') = Some c /\ difficulty (ui wc') = None /\
   score (ui wc') = 0 /\ question (ui wc') = question (ui wc) /\
   inflight wc' = inflight wc /\ issued wc' = issued wc) /\
  (score (handleDifficultySelect d (ui wd)) = 0 /\
   score (ui wd') = 0 /\ difficulty (ui wd') = Some d /\
   category (ui wd') = category (ui wd) /\
   question (ui wd') = None /\ selectedAnswer (ui wd') = None /\
   isAnswered (ui wd') = false /\ error (ui wd') = None /\
   isLoading (ui wd') = true /\ interval wd' = false /\
   exists c', category (ui wd) = Some c' /\
     inflight wd' = inflight wd ++ [(issued wd, mkRequest d c')]).
Proof.
  intros Hc Hd wc' wd'. split.
  - subst wc'. unfold step. simpl. rewrite Hc.
    assert (Hf : fetchEffect (ui wc) (handleCategorySelect c (ui wc)) =
                 (handleCategorySelect c (ui wc), None)).
    { unfold fetchEffect. simpl. now destruct (bool_decide _). }
    rewrite Hf.
    pose proof (runTimerEffect_fields (handleCategorySelect c (ui wc)))
      as (Hq & Hs & _ & _ & _ & Hcat & Hdif & _).
    destruct (runTimerEffect _) as [s3 iv]. simpl in *.
    rewrite Hq, Hs, Hcat, Hdif. split_and!; reflexivity.
  - subst wd'. unfold step. simpl. rewrite Hd.
    unfold showsDifficultySelector in Hd.
    apply andb_true_iff in Hd as [Hcat Hdif].
    destruct (difficulty (ui wd)) as [d0|] eqn:Ed; [discriminate|].
    destruct (category (ui wd)) as [c'|] eqn:Ec; [|discriminate].
    unfold fetchEffect. simpl. rewrite Ed, Ec.
    rewrite bool_decide_eq_false_2 by (intros [? _]; discriminate).
    rewrite Hcat. simpl in Hcat. apply negb_true_iff in Hcat.
    unfold fetchNewQuestion_start. simpl. rewrite Ec. simpl. rewrite Hcat.
    simpl. split_and!; auto. exists c'. auto.
Qed.

Lemma selection_resets_score_witness :
  score (ui (step (SelectCategory "Science") boot)) = 0 /\
  score (ui (step (SelectDifficulty Hard) difficultyScreen)) = 0 /\
  question (ui (step (SelectDifficulty Hard) difficultyScreen)) = None.
Proof.
  destruct (selection_resets_score boot difficultyScreen "Science" Hard
              eq_refl eq_refl) as [(_ & _ & Hs & _) (_ & Hs' & _ & _ & Hq & _)].
  split_and!; assumption.
Defined.

(** ** Two requests in flight *)

Lemma settle_fulfilled id q w :
  is_inflight id w = true ->
  let w' := step (FetchSettled id (Fulfilled q)) w in
  question (ui w') = Some q /\ timeLeft (ui w') = TIME_LIMIT /\
  isLoading (ui w') = false /\
  selectedAnswer (ui w') = selectedAnswer (ui w) /\
  isAnswered (ui w') = isAnswered (ui w) /\
  score (ui w') = score (ui w) /\
  inflight w' = filter (fun p => p.1 <> id) (inflight w) /\
  issued w' = issued w.
Proof.
  intros Hin. simpl. rewrite step_quiet by auto. simpl.
  pose proof (runTimerEffect_fields
                (fetchNewQuestion_settle (Fulfilled q) (ui w)))
    as (Hq & Hs & Hl & _ & Hsel & _ & _ & Ht & Ha).
  simpl in *. rewrite Hq, Hs, Hl, Hsel, Ht. split_and!; auto.
  destruct Ha as [Ha|(_ & _ & Hle)]; [exact Ha|].
  unfold TIME_LIMIT in Hle. lia.
Qed.

Lemma is_inflight_after id id' r w :
  id <> id' -> is_inflight id' w = true ->
  is_inflight id' (step (FetchSettled id r) w) = true.
Proof.
  intros Hne Hin.
  destruct (enabled (FetchSettled id r) w) eqn:He;
    [|unfold step; now rewrite He].
  rewrite step_quiet by auto. unfold is_inflight in *. simpl.
  apply bool_decide_eq_true in Hin. apply bool_decide_eq_true.
  apply list_elem_of_fmap in Hin as ([n x] & -> & Hin).
  apply list_elem_of_fmap. exists (n, x). split; [reflexivity|].
  apply list_elem_of_filter. simpl in *. split; [congruence | exact Hin].
Qed.

(** C8, as stated, fails: the response to the request issued first arrives
    last and replaces the question of the request issued second. *)
Lemma stale_response_overwrites :
  inflight twoInFlight =
    [(0%nat, mkRequest Easy "Science"); (1%nat, mkRequest Hard "Science")] /\
  let w := run [FetchSettled 1 (Fulfilled hardQuestion);
                FetchSettled 0 (Fulfilled twoPlusTwo)] twoInFlight in
  difficulty (ui w) = Some Hard /\
  question (ui w) = Some twoPlusTwo /\
  question (ui w) <> Some hardQuestion.
Proof. vm_compute. split_and!; auto; discriminate. Qed.

(** C8, amended.  The code keeps no record of which request is the latest:
    a response is applied when it arrives.  For any two requests in flight
    that both deliver a question, the state after both have settled shows
    the question of the one that settled last, whatever the order in which
    they were issued. *)
Theorem last_settled_wins (w : Sys) (id1 id2 : nat) (q1 q2 : TriviaQuestion.t) :
  id1 <> id2 ->
  is_inflight id1 w = true -> is_inflight id2 w = true ->
  let w' := run [FetchSettled id1 (Fulfilled q1);
                 FetchSettled id2 (Fulfilled q2)] w in
  question (ui w') = Some q2 /\ timeLeft (ui w') = TIME_LIMIT /\
  isLoading (ui w') = false /\
  is_inflight id1 w' = false /\ is_inflight id2 w' = false.
Proof.
  intros Hne H1 H2 w'. subst w'. simpl.
  pose proof (is_inflight_after id1 id2 (Fulfilled q1) w Hne H2) as H2'.
  destruct (settle_fulfilled id1 q1 w H1) as (_ & _ & _ & _ & _ & _ & Hf1 & _).
  destruct (settle_fulfilled id2 q2 _ H2') as (Hq & Ht & Hl & _ & _ & _ & Hf2 & _).
  split_and!; auto.
  - unfold is_inflight. apply bool_decide_eq_false. rewrite Hf2, Hf1.
    intros Hin. apply list_elem_of_fmap in Hin as ([n x] & -> & Hin).
    apply list_elem_of_filter in Hin as [_ Hin].
    apply list_elem_of_filter in Hin as [Hin _]. now apply Hin.
  - unfold is_inflight. apply bool_decide_eq_false. rewrite Hf2.
    intros Hin. apply list_elem_of_fmap in Hin as ([n x] & -> & Hin).
    apply list_elem_of_filter in Hin as [Hin _]. now apply Hin.
Qed.

Lemma last_settled_wins_witness :
  question (ui (run [FetchSettled 0 (Fulfilled twoPlusTwo);
                     FetchSettled 1 (Fulfilled hardQuestion)] twoInFlight))
    = Some hardQuestion /\
  question (ui (run [FetchSettled 1 (Fulfilled hardQuestion);
                     FetchSettled 0 (Fulfilled twoPlusTwo)] twoInFlight))
    = Some twoPlusTwo.
Proof.
  split.
  - apply (last_settled_wins twoInFlight 0 1 twoPlusTwo hardQuestion);
      [discriminate | reflexivity | reflexivity].
  - apply (last_settled_wins twoInFlight 1 0 hardQuestion twoPlusTwo);
      [discriminate | reflexivity | reflexivity].
Defined.

End AppFacts.

(** * The difficulty-only build of [src/unnamed/part_000] *)
Section LegacyFacts.
Import Legacy.

Lemma legacy_reachable_invariant (P : Sys -> Prop) :
  P boot -> (forall e w, P w -> P (step e w)) ->
  forall w, reachable w -> P w.
Proof.
  intros Hboot Hstep w [es ->]. revert Hboot. generalize boot.
  induction es as [|e es IH]; intros w Hw; simpl; [exact Hw|].
  apply IH, Hstep, Hw.
Qed.

Lemma legacy_start_fields s :
  let s' := (fetchNewQuestion_start s).1 in
  score s' = score s /\ difficulty s' = difficulty s /\
  (s' = s /\ (fetchNewQuestion_start s).2 = None \/
   (question s' = None /\ isLoading s' = true /\ error s' = None /\
    selectedAnswer s' = None /\ isAnswered s' = false /\
    (fetchNewQuestion_start s).2 = difficulty s /\
    is_Some (difficulty s))).
Proof.
  unfold fetchNewQuestion_start.
  destruct (difficulty s) as [d|] eqn:Ed; simpl; [|intuition].
  split_and!; auto. right. split_and!; eauto.
Qed.

Lemma legacy_fetchEffect_fields prev cur :
  let s' := (fetchEffect prev cur).1 in
  score s' = score cur /\ difficulty s' = difficulty cur /\
  (s' = cur /\ (fetchEffect prev cur).2 = None \/
   (question s' = None /\ isLoading s' = true /\ error s' = None /\
    selectedAnswer s' = None /\ isAnswered s' = false /\
    (fetchEffect prev cur).2 = difficulty cur /\
    is_Some (difficulty cur))).
Proof.
  unfold fetchEffect.
  destruct (bool_decide _); [simpl; intuition|].
  destruct (truthy_obj (difficulty cur));
    [apply legacy_start_fields | simpl; intuition].
Qed.

Lemma legacy_fetchEffect_same prev cur :
  difficulty prev = difficulty cur -> fetchEffect prev cur = (cur, None).
Proof.
  intros Hd. unfold fetchEffect. now rewrite bool_decide_eq_true_2.
Qed.

Lemma legacy_handleAnswerSelect_fields k s :
  let s' := handleAnswerSelect k s in
  question s' = question s /\ isLoading s' = isLoading s /\
  error s' = error s /\ difficulty s' = difficulty s.
Proof.
  unfold handleAnswerSelect. destruct (isAnswered s); [intuition|].
  destruct (strictEqKey _ _); simpl; intuition.
Qed.

Lemma legacy_handler_selection_answered e s :
  legacy_selection_answered s -> legacy_selection_answered (handler e s).1.
Proof.
  unfold legacy_selection_answered.
  assert (Hstart : (selectedAnswer s <> None -> isAnswered s = true) ->
    selectedAnswer (fetchNewQuestion_start s).1 <> None ->
    isAnswered (fetchNewQuestion_start s).1 = true).
  { pose proof (legacy_start_fields s) as (_ & _ & H).
    destruct H as [[-> _]|(_ & _ & _ & Hs & _)]; [auto|].
    rewrite Hs. intros _ H. now elim H. }
  destruct e; simpl; auto.
  - unfold handleAnswerSelect. destruct (isAnswered s) eqn:E; [auto|].
    destruct (strictEqKey _ _); reflexivity.
  - unfold fetchNewQuestion_settle.
    destruct (generateTriviaQuestion r); auto.
Qed.

Lemma legacy_step_selection_answered e w :
  legacy_selection_answered (ui w) -> legacy_selection_answered (ui (step e w)).
Proof.
  intros Hw. unfold step. destruct (enabled e w); [|exact Hw].
  pose proof (legacy_handler_selection_answered e _ Hw) as H1.
  destruct (handler e (ui w)) as [s1 r1]. simpl in H1.
  pose proof (legacy_fetchEffect_fields (ui w) s1) as (_ & _ & H2).
  destruct (fetchEffect (ui w) s1) as [s2 r2]. simpl in H2.
  destruct (issue r2 _) as [reqs n]. simpl.
  destruct H2 as [[-> _]|(_ & _ & _ & Hs & _)]; [auto|].
  unfold legacy_selection_answered. rewrite Hs. intros H. now elim H.
Qed.

Lemma legacy_reachable_selection_answered w :
  reachable w -> legacy_selection_answered (ui w).
Proof.
  apply (legacy_reachable_invariant (fun w => legacy_selection_answered (ui w))).
  - intros H. now elim H.
  - apply legacy_step_selection_answered.
Qed.

(** The answer buttons are live only on an unanswered card. *)
Lemma legacy_answer_enabled k w :
  enabled (SelectAnswer k) w = true ->
  isAnswered (ui w) = false /\ is_Some (question (ui w)).
Proof.
  unfold enabled, renderContent.
  destruct (negb (truthy_obj (difficulty (ui w)))); [discriminate|].
  destruct (isLoading (ui w) && _); [discriminate|].
  destruct (truthy_string (error (ui w))); [discriminate|].
  destruct (question (ui w)); [|discriminate].
  destruct (isAnswered (ui w)); [discriminate|]. eauto.
Qed.

Lemma legacy_step_answer k w :
  enabled (SelectAnswer k) w = true ->
  step (SelectAnswer k) w =
    {| ui := handleAnswerSelect k (ui w); inflight := inflight w;
       issued := issued w |}.
Proof.
  intros He. unfold step. rewrite He. simpl.
  pose proof (legacy_handleAnswerSelect_fields k (ui w)) as (_ & _ & _ & Hd).
  simpl in Hd. now rewrite legacy_fetchEffect_same.
Qed.

Lemma legacy_answered_terminal k w :
  isAnswered (ui w) = true ->
  step (SelectAnswer k) w = w /\ handleAnswerSelect k (ui w) = ui w.
Proof.
  intros Ha. split.
  - destruct (enabled (SelectAnswer k) w) eqn:He;
      [|unfold step; now rewrite He].
    apply legacy_answer_enabled in He as [He _]. congruence.
  - unfold handleAnswerSelect. now rewrite Ha.
Qed.

Lemma legacy_handler_request e s r :
  (handler e s).2 = Some r -> e = NextQuestion \/ e = TryAgain.
Proof. destruct e; simpl; try discriminate; auto. Qed.

Lemma legacy_step_issues e w :
  issued (step e w) <> issued w ->
  let w' := step e w in
  question (ui w') = None /\ isLoading (ui w') = true /\
  error (ui w') = None /\ selectedAnswer (ui w') = None /\
  isAnswered (ui w') = false /\
  exists d,
    inflight w' = inflight w ++ [(issued w, d)] /\
    issued w' = S (issued w) /\ difficulty (ui w') = Some d.
Proof.
  unfold step. destruct (enabled e w) eqn:He; [|congruence].
  pose proof (legacy_start_fields (ui w)) as Hs.
  pose proof (legacy_handler_request e (ui w)) as Hh.
  destruct (handler e (ui w)) as [s1 r1] eqn:E1. simpl in Hh.
  pose proof (legacy_fetchEffect_fields (ui w) s1) as Hf.
  destruct (fetchEffect (ui w) s1) as [s2 r2] eqn:E2. simpl in Hf.
  destruct r1 as [d|].
  - assert (E1' : fetchNewQuestion_start (ui w) = (s1, Some d)).
    { destruct (Hh d eq_refl); subst e; exact E1. }
    assert (Hset : settle_request e (inflight w) = inflight w).
    { destruct (Hh d eq_refl); subst e; reflexivity. }
    rewrite E1' in Hs. simpl in Hs.
    destruct Hs as (_ & Hd & [[_ ?]|(? & ? & ? & ? & ? & Hr & _)]);
      [discriminate|].
    rewrite legacy_fetchEffect_same in E2 by auto. injection E2 as <- <-.
    rewrite Hset. simpl. intros _. split_and!; auto. exists d.
    split_and!; auto. congruence.
  - destruct r2 as [d|]; [|simpl; congruence].
    destruct Hf as (_ & Hd & [[_ ?]|(? & ? & ? & ? & ? & Hr & _)]);
      [discriminate|].
    assert (Hset : settle_request e (inflight w) = inflight w).
    { destruct e; try reflexivity. simpl in E1. injection E1 as <-.
      rewrite legacy_fetchEffect_same in E2; [discriminate|].
      unfold fetchNewQuestion_settle.
      now destruct (generateTriviaQuestion r). }
    rewrite Hset. simpl. intros _. split_and!; auto. exists d.
    split_and!; auto. congruence.
Qed.

Lemma legacy_settle_value id r data w :
  bool_decide (id ∈ (inflight w).*1) = true ->
  generateTriviaQuestion r = Value data ->
  let w' := step (FetchSettled id r) w in
  question (ui w') = Some data /\ isLoading (ui w') = false /\
  selectedAnswer (ui w') = selectedAnswer (ui w) /\
  isAnswered (ui w') = isAnswered (ui w) /\
  error (ui w') = error (ui w) /\ score (ui w') = score (ui w).
Proof.
  intros Hin Hv. unfold step. simpl.
  assert (He : enabled (FetchSettled id r) w = true).
  { unfold enabled. now destruct (renderContent (ui w)). }
  simpl in He. rewrite He.
  rewrite legacy_fetchEffect_same;
    unfold fetchNewQuestion_settle; rewrite Hv; simpl; auto.
  split_and!; reflexivity.
Qed.

End LegacyFacts.

(** * Properties of both builds *)

Lemma handleAnswerSelect_first (k : AnswerKey) (s : App.State) :
  App.isAnswered s = false ->
  App.selectedAnswer (App.handleAnswerSelect k s) = Some k /\
  App.isAnswered (App.handleAnswerSelect k s) = true.
Proof.
  intros Ha. unfold App.handleAnswerSelect. rewrite Ha.
  now destruct (bool_decide _).
Qed.

Lemma legacy_handleAnswerSelect_first (k : AnswerKey) (s : Legacy.State) :
  Legacy.isAnswered s = false ->
  Legacy.selectedAnswer (Legacy.handleAnswerSelect k s) = Some k /\
  Legacy.isAnswered (Legacy.handleAnswerSelect k s) = true.
Proof.
  intros Ha. unfold Legacy.handleAnswerSelect. rewrite Ha.
  now destruct (strictEqKey _ _).
Qed.

Lemma answered_run (ks : list AnswerKey) (w : App.Sys) :
  timer_consistent w -> App.isAnswered (App.ui w) = true ->
  App.run (map App.SelectAnswer ks) w = w /\
  fold_left (fun s k' => App.handleAnswerSelect k' s) ks (App.ui w) = App.ui w.
Proof.
  intros Hc Ha. induction ks as [|k' ks IH]; simpl; [auto|].
  destruct (answered_terminal w k' Hc Ha) as [-> _].
  unfold App.handleAnswerSelect at 2. rewrite Ha. exact IH.
Qed.

Lemma legacy_answered_run (ks : list AnswerKey) (w : Legacy.Sys) :
  Legacy.isAnswered (Legacy.ui w) = true ->
  Legacy.run (map Legacy.SelectAnswer ks) w = w /\
  fold_left (fun s k' => Legacy.handleAnswerSelect k' s) ks (Legacy.ui w)
    = Legacy.ui w.
Proof.
  intros Ha. induction ks as [|k' ks IH]; simpl; [auto|].
  destruct (legacy_answered_terminal k' w Ha) as [-> ->]. exact IH.
Qed.

(** C4.  On an unanswered card, the first answer [k] registers the
    selection and marks the round answered; every later answer of the round,
    whichever key it carries, leaves the whole state as it is.  This holds in
    the build with categories and in the difficulty-only build, for the
    handler alone and for whole turns of the event loop. *)
Theorem answer_idempotent
    (w : App.Sys) (l : Legacy.Sys) (k : AnswerKey) (ks : list AnswerKey) :
  App.showsQuizCard (App.ui w) = true ->
  App.isAnswered (App.ui w) = false ->
  Legacy.enabled (Legacy.SelectAnswer k) l = true ->
  let w1 := App.step (App.SelectAnswer k) w in
  let l1 := Legacy.step (Legacy.SelectAnswer k) l in
  (App.ui w1 = App.handleAnswerSelect k (App.ui w) /\
   App.selectedAnswer (App.ui w1) = Some k /\
   App.isAnswered (App.ui w1) = true /\
   App.run (map App.SelectAnswer ks) w1 = w1 /\
   fold_left (fun s k' => App.handleAnswerSelect k' s) ks (App.ui w1)
     = App.ui w1) /\
  (Legacy.ui l1 = Legacy.handleAnswerSelect k (Legacy.ui l) /\
   Legacy.selectedAnswer (Legacy.ui l1) = Some k /\
   Legacy.isAnswered (Legacy.ui l1) = true /\
   Legacy.run (map Legacy.SelectAnswer ks) l1 = l1 /\
   fold_left (fun s k' => Legacy.handleAnswerSelect k' s) ks (Legacy.ui l1)
     = Legacy.ui l1).
Proof.
  intros Hshow Ha Hen w1 l1. split.
  - destruct (handleAnswerSelect_first k (App.ui w) Ha) as [Hs Hans].
    assert (Hu : App.ui w1 = App.handleAnswerSelect k (App.ui w)).
    { subst w1. rewrite step_quiet by auto. simpl.
      now rewrite runTimerEffect_answered. }
    assert (Hc : timer_consistent w1).
    { now apply enabled_step_timer_consistent. }
    rewrite Hu in *. split_and!; auto.
    + apply answered_run; [exact Hc | now rewrite Hu].
    + rewrite <- Hu. apply answered_run; [exact Hc | now rewrite Hu].
  - destruct (legacy_answer_enabled k l Hen) as [Ha' _].
    destruct (legacy_handleAnswerSelect_first k (Legacy.ui l) Ha') as [Hs Hans].
    assert (Hu : Legacy.ui l1 = Legacy.handleAnswerSelect k (Legacy.ui l)).
    { subst l1. now rewrite legacy_step_answer. }
    split_and!; [exact Hu | congruence | congruence | |];
      apply legacy_answered_run; congruence.
Qed.

Lemma answer_idempotent_witness :
  App.run (map App.SelectAnswer [KeyA; KeyB; KeyC])
          (App.step (App.SelectAnswer KeyC) roundOpen)
    = App.step (App.SelectAnswer KeyC) roundOpen /\
  Legacy.run (map Legacy.SelectAnswer [KeyA; KeyB; KeyC])
             (Legacy.step (Legacy.SelectAnswer KeyC) legacyRoundOpen)
    = Legacy.step (Legacy.SelectAnswer KeyC) legacyRoundOpen.
Proof.
  destruct (answer_idempotent roundOpen legacyRoundOpen KeyC [KeyA; KeyB; KeyC]
              eq_refl eq_refl eq_refl)
    as [(_ & _ & _ & H & _) (_ & _ & _ & H' & _)].
  split; assumption.
Defined.


(** ** A selection only on an answered round *)

Lemma reset_step (e : App.Event) (w : App.Sys) :
  e = App.ChangeCategory \/ e = App.ChangeDifficulty ->
  App.selectedAnswer (App.ui (App.step e w)) = App.selectedAnswer (App.ui w) /\
  App.isAnswered (App.ui (App.step e w)) = App.isAnswered (App.ui w) /\
  App.issued (App.step e w) = App.issued w.
Proof.
  intros He. unfold App.step. destruct (App.enabled e w); [|auto].
  destruct He as [-> | ->]; simpl; unfold App.fetchEffect; simpl;
    destruct (bool_decide _); simpl; auto.
Qed.

Lemma legacy_reset_step (w : Legacy.Sys) :
  let w' := Legacy.step Legacy.ChangeDifficulty w in
  Legacy.selectedAnswer (Legacy.ui w') = Legacy.selectedAnswer (Legacy.ui w) /\
  Legacy.isAnswered (Legacy.ui w') = Legacy.isAnswered (Legacy.ui w) /\
  Legacy.issued w' = Legacy.issued w.
Proof.
  unfold Legacy.step.
  destruct (Legacy.enabled Legacy.ChangeDifficulty w); [|auto].
  simpl. unfold Legacy.fetchEffect. simpl.
  destruct (bool_decide _); simpl; auto.
Qed.

(** C10, as stated, fails for the reset transitions: after the player has
    answered C, Change Difficulty leaves the selection and the answered flag
    in place. *)
Lemma reset_keeps_selection :
  App.enabled App.ChangeDifficulty roundAnswered = true /\
  App.selectedAnswer (App.ui (App.step App.ChangeDifficulty roundAnswered))
    = Some KeyC /\
  App.isAnswered (App.ui (App.step App.ChangeDifficulty roundAnswered)) = true /\
  App.selectedAnswer (App.resetDifficulty (App.ui roundAnswered)) <> None /\
  App.selectedAnswer (App.resetCategory (App.ui roundAnswered)) <> None.
Proof. vm_compute. split_and!; auto; discriminate. Qed.

(** C10, amended.  Every event of either controller keeps the invariant
    that a present [selectedAnswer] implies [isAnswered]: it holds in every
    reachable state and after every further event; the tick that ends a
    round by timeout leaves no selection; an answer on an unanswered card
    sets both; every turn that starts a fetch clears both; and the reset
    transitions (Change Category, Change Difficulty) leave both as they
    were. *)
Theorem selection_only_when_answered
    (w : App.Sys) (e : App.Event) (l : Legacy.Sys) (e' : Legacy.Event) :
  App.reachable w -> Legacy.reachable l ->
  let w' := App.step e w in
  let l' := Legacy.step e' l in
  (selection_answered (App.ui w) /\ selection_answered (App.ui w') /\
   (e = App.TimerTick -> App.isAnswered (App.ui w) = false ->
    App.isAnswered (App.ui w') = true ->
    App.selectedAnswer (App.ui w') = None) /\
   (forall k, e = App.SelectAnswer k -> App.enabled e w = true ->
    App.isAnswered (App.ui w) = false ->
    App.selectedAnswer (App.ui w') = Some k /\
    App.isAnswered (App.ui w') = true) /\
   (App.issued w' <> App.issued w ->
    App.selectedAnswer (App.ui w') = None /\
    App.isAnswered (App.ui w') = false) /\
   (e = App.ChangeCategory \/ e = App.ChangeDifficulty ->
    App.selectedAnswer (App.ui w') = App.selectedAnswer (App.ui w) /\
    App.isAnswered (App.ui w') = App.isAnswered (App.ui w))) /\
  (legacy_selection_answered (Legacy.ui l) /\
   legacy_selection_answered (Legacy.ui l') /\
   (forall k, e' = Legacy.SelectAnswer k -> Legacy.enabled e' l = true ->
    Legacy.selectedAnswer (Legacy.ui l') = Some k /\
    Legacy.isAnswered (Legacy.ui l') = true) /\
   (Legacy.issued l' <> Legacy.issued l ->
    Legacy.selectedAnswer (Legacy.ui l') = None /\
    Legacy.isAnswered (Legacy.ui l') = false) /\
   (e' = Legacy.ChangeDifficulty ->
    Legacy.selectedAnswer (Legacy.ui l') = Legacy.selectedAnswer (Legacy.ui l) /\
    Legacy.isAnswered (Legacy.ui l') = Legacy.isAnswered (Legacy.ui l))).
Proof.
  intros Hw Hl w' l'.
  pose proof (reachable_selection_answered w Hw) as Hinv.
  pose proof (legacy_reachable_selection_answered l Hl) as Hinv'.
  split.
  - split_and!.
    + exact Hinv.
    + now apply step_selection_answered.
    + intros -> Ha _. subst w'.
      assert (Hnone : App.selectedAnswer (App.ui w) = None).
      { destruct (App.selectedAnswer (App.ui w)) eqn:E; [|reflexivity].
        unfold selection_answered in Hinv. rewrite E in Hinv.
        rewrite Hinv in Ha; discriminate. }
      destruct (App.enabled App.TimerTick w) eqn:He;
        [|unfold App.step; now rewrite He].
      rewrite step_quiet by auto. simpl.
      pose proof (runTimerEffect_fields (App.tick (App.ui w)))
        as (_ & _ & _ & _ & Hs & _). simpl in Hs. now rewrite Hs.
    + intros k -> He Ha. subst w'. rewrite step_quiet by auto. simpl.
      destruct (handleAnswerSelect_first k (App.ui w) Ha) as [Hs Hans].
      rewrite runTimerEffect_answered by exact Hans. auto.
    + intros Hi. destruct (step_issues e w Hi) as (_ & _ & _ & Hs & Ha & _).
      auto.
    + intros He. destruct (reset_step e w He) as (Hs & Ha & _). auto.
  - split_and!.
    + exact Hinv'.
    + now apply legacy_step_selection_answered.
    + intros k -> He. subst l'. rewrite legacy_step_answer by exact He.
      simpl. apply legacy_handleAnswerSelect_first.
      now apply (legacy_answer_enabled k l).
    + intros Hi. destruct (legacy_step_issues e' l Hi) as (_ & _ & _ & Hs & Ha & _).
      auto.
    + intros ->. destruct (legacy_reset_step l) as (Hs & Ha & _). auto.
Qed.

Lemma selection_only_when_answered_witness :
  selection_answered (App.ui (App.step App.TimerTick roundOpen)) /\
  legacy_selection_answered
    (Legacy.ui (Legacy.step (Legacy.SelectAnswer KeyC) legacyRoundOpen)).
Proof.
  assert (Hr : App.reachable roundOpen) by (eexists; reflexivity).
  assert (Hl : Legacy.reachable legacyRoundOpen) by (eexists; reflexivity).
  destruct (selection_only_when_answered roundOpen App.TimerTick
              legacyRoundOpen (Legacy.SelectAnswer KeyC) Hr Hl)
    as [(_ & H & _) (_ & H' & _)].
  split; assumption.
Defined.


(** ** The fetch transition *)

(** Until a question is delivered, a round that has no question, no
    selection and no answered flag stays so. *)
Lemma blank_step (e : App.Event) (w : App.Sys) :
  fulfils e = false ->
  App.question (App.ui w) = None /\ App.selectedAnswer (App.ui w) = None /\
  App.isAnswered (App.ui w) = false ->
  App.question (App.ui (App.step e w)) = None /\
  App.selectedAnswer (App.ui (App.step e w)) = None /\
  App.isAnswered (App.ui (App.step e w)) = false.
Proof.
  intros Hf (Hq & Hs & Ha). unfold App.step.
  destruct (App.enabled e w) eqn:He; [|auto].
  assert (H1 : App.question (App.handler e (App.ui w)).1 = None /\
               App.selectedAnswer (App.handler e (App.ui w)).1 = None /\
               App.isAnswered (App.handler e (App.ui w)).1 = false).
  { destruct e; simpl; auto.
    - simpl in He. unfold App.showsQuizCard in He. rewrite Hq in He.
      simpl in He. rewrite andb_false_r in He. discriminate.
    - pose proof (fetchNewQuestion_start_fields (App.ui w)) as (_ & _ & _ & _ & H).
      destruct H as [[-> _]|(? & _ & _ & ? & ? & _)]; auto.
    - destruct r; [discriminate|]. simpl. auto. }
  destruct (App.handler e (App.ui w)) as [s1 r1]. simpl in H1.
  pose proof (fetchEffect_fields (App.ui w) s1) as (_ & _ & _ & _ & H2).
  destruct (App.fetchEffect (App.ui w) s1) as [s2 r2]. simpl in H2.
  assert (H2' : App.question s2 = None /\ App.selectedAnswer s2 = None /\
                App.isAnswered s2 = false).
  { destruct H2 as [[-> _]|(? & _ & _ & ? & ? & _)]; auto. }
  rewrite (idle_timerEffect s2) by (right; apply H2').
  destruct (App.issue r2 _) as [reqs n]. simpl. exact H2'.
Qed.

Lemma blank_run (es : list App.Event) (w : App.Sys) :
  Forall (fun e => fulfils e = false) es ->
  App.question (App.ui w) = None /\ App.selectedAnswer (App.ui w) = None /\
  App.isAnswered (App.ui w) = false ->
  App.question (App.ui (App.run es w)) = None /\
  App.selectedAnswer (App.ui (App.run es w)) = None /\
  App.isAnswered (App.ui (App.run es w)) = false.
Proof.
  revert w. induction es as [|e es IH]; intros w Hes Hw; simpl; [exact Hw|].
  inversion Hes as [|? ? He Hes']; subst.
  apply IH; [exact Hes' | now apply blank_step].
Qed.

Lemma legacy_blank_step (e : Legacy.Event) (w : Legacy.Sys) :
  legacy_fulfils e = false ->
  Legacy.question (Legacy.ui w) = None /\
  Legacy.selectedAnswer (Legacy.ui w) = None /\
  Legacy.isAnswered (Legacy.ui w) = false ->
  Legacy.question (Legacy.ui (Legacy.step e w)) = None /\
  Legacy.selectedAnswer (Legacy.ui (Legacy.step e w)) = None /\
  Legacy.isAnswered (Legacy.ui (Legacy.step e w)) = false.
Proof.
  intros Hf (Hq & Hs & Ha). unfold Legacy.step.
  destruct (Legacy.enabled e w) eqn:He; [|auto].
  assert (H1 : Legacy.question (Legacy.handler e (Legacy.ui w)).1 = None /\
               Legacy.selectedAnswer (Legacy.handler e (Legacy.ui w)).1 = None /\
               Legacy.isAnswered (Legacy.handler e (Legacy.ui w)).1 = false).
  { assert (Hstart :
      Legacy.question (Legacy.fetchNewQuestion_start (Legacy.ui w)).1 = None /\
      Legacy.selectedAnswer (Legacy.fetchNewQuestion_start (Legacy.ui w)).1 = None /\
      Legacy.isAnswered (Legacy.fetchNewQuestion_start (Legacy.ui w)).1 = false).
    { pose proof (legacy_start_fields (Legacy.ui w)) as (_ & _ & H).
      destruct H as [[-> _]|(? & _ & _ & ? & ? & _)]; auto. }
    destruct e; simpl; auto.
    - revert He. unfold Legacy.enabled, Legacy.renderContent. rewrite Hq.
      destruct (negb _); [discriminate|].
      destruct (_ && _); [discriminate|].
      destruct (truthy_string _); discriminate.
    - unfold Legacy.fetchNewQuestion_settle. simpl in Hf.
      destruct (Legacy.generateTriviaQuestion r); [discriminate|]. simpl. auto. }
  destruct (Legacy.handler e (Legacy.ui w)) as [s1 r1]. simpl in H1.
  pose proof (legacy_fetchEffect_fields (Legacy.ui w) s1) as (_ & _ & H2).
  destruct (Legacy.fetchEffect (Legacy.ui w) s1) as [s2 r2]. simpl in H2.
  destruct (Legacy.issue r2 _) as [reqs n]. simpl.
  destruct H2 as [[-> _]|(? & _ & _ & ? & ? & _)]; auto.
Qed.

Lemma legacy_blank_run (es : list Legacy.Event) (w : Legacy.Sys) :
  Forall (fun e => legacy_fulfils e = false) es ->
  Legacy.question (Legacy.ui w) = None /\
  Legacy.selectedAnswer (Legacy.ui w) = None /\
  Legacy.isAnswered (Legacy.ui w) = false ->
  Legacy.question (Legacy.ui (Legacy.run es w)) = None /\
  Legacy.selectedAnswer (Legacy.ui (Legacy.run es w)) = None /\
  Legacy.isAnswered (Legacy.ui (Legacy.run es w)) = false.
Proof.
  revert w. induction es as [|e es IH]; intros w Hes Hw; simpl; [exact Hw|].
  inversion Hes as [|? ? He Hes']; subst.
  apply IH; [exact Hes' | now apply legacy_blank_step].
Qed.

(** C3, as stated, fails: with two requests in flight, the first delivers
    its question and the player answers it; the success of the second then
    sets its question over a selection that is present and an answered flag
    that is set, and no countdown starts. *)
Lemma stale_success_keeps_selection :
  App.inflight twoInFlight
    = [(0%nat, App.mkRequest Easy "Science"); (1%nat, App.mkRequest Hard "Science")] /\
  App.reachable
    (App.run [App.FetchSettled 0 (App.Fulfilled twoPlusTwo); App.SelectAnswer KeyB]
             twoInFlight) /\
  App.enabled (App.FetchSettled 1 (App.Fulfilled hardQuestion))
    (App.run [App.FetchSettled 0 (App.Fulfilled twoPlusTwo); App.SelectAnswer KeyB]
             twoInFlight) = true /\
  App.question
    (App.ui (App.run [App.FetchSettled 0 (App.Fulfilled twoPlusTwo);
                      App.SelectAnswer KeyB;
                      App.FetchSettled 1 (App.Fulfilled hardQuestion)] twoInFlight))
    = Some hardQuestion /\
  App.selectedAnswer
    (App.ui (App.run [App.FetchSettled 0 (App.Fulfilled twoPlusTwo);
                      App.SelectAnswer KeyB;
                      App.FetchSettled 1 (App.Fulfilled hardQuestion)] twoInFlight))
    = Some KeyB /\
  App.isAnswered
    (App.ui (App.run [App.FetchSettled 0 (App.Fulfilled twoPlusTwo);
                      App.SelectAnswer KeyB;
                      App.FetchSettled 1 (App.Fulfilled hardQuestion)] twoInFlight))
    = true /\
  App.interval
    (App.run [App.FetchSettled 0 (App.Fulfilled twoPlusTwo);
              App.SelectAnswer KeyB;
              App.FetchSettled 1 (App.Fulfilled hardQuestion)] twoInFlight)
    = false.
Proof.
  split_and!; try (vm_compute; reflexivity).
  exists [App.SelectCategory "Science"; App.SelectDifficulty Easy;
          App.ChangeDifficulty; App.SelectDifficulty Hard;
          App.FetchSettled 0 (App.Fulfilled twoPlusTwo); App.SelectAnswer KeyB].
  vm_compute. reflexivity.
Qed.

(** C3, amended.  Every turn of the event loop that issues a request leaves
    [isLoading] set and the error, the question, the selection and the
    answered flag cleared, with the request in flight and no timer interval.
    The success of a request in flight sets the question, ends loading and
    (in the build with the timer) puts [timeLeft] back at the full 15
    seconds; it leaves the selection and the answered flag as they are.  So
    when no other response has delivered a question since the request was
    issued, whatever else happened in between, the selection is absent and
    the answered flag false after the success, and the countdown runs. *)
Theorem fetch_transition
    (w : App.Sys) (e : App.Event) (es : list App.Event) (q : TriviaQuestion.t)
    (l : Legacy.Sys) (e' : Legacy.Event) (es' : list Legacy.Event)
    (r : Legacy.Fetched) (data : JSON) :
  App.issued (App.step e w) <> App.issued w ->
  Forall (fun x => fulfils x = false) es ->
  App.is_inflight (App.issued w) (App.run es (App.step e w)) = true ->
  Legacy.issued (Legacy.step e' l) <> Legacy.issued l ->
  Forall (fun x => legacy_fulfils x = false) es' ->
  bool_decide (Legacy.issued l ∈
               (Legacy.inflight (Legacy.run es' (Legacy.step e' l))).*1) = true ->
  Legacy.generateTriviaQuestion r = Value data ->
  let w1 := App.step e w in
  let w2 := App.step (App.FetchSettled (App.issued w) (App.Fulfilled q))
                     (App.run es w1) in
  let l1 := Legacy.step e' l in
  let l2 := Legacy.step (Legacy.FetchSettled (Legacy.issued l) r)
                        (Legacy.run es' l1) in
  (App.isLoading (App.ui w1) = true /\ App.error (App.ui w1) = None /\
   App.question (App.ui w1) = None /\ App.selectedAnswer (App.ui w1) = None /\
   App.isAnswered (App.ui w1) = false /\ App.interval w1 = false /\
   App.is_inflight (App.issued w) w1 = true /\
   App.question (App.ui w2) = Some q /\ App.selectedAnswer (App.ui w2) = None /\
   App.isAnswered (App.ui w2) = false /\ App.timeLeft (App.ui w2) = 15 /\
   App.isLoading (App.ui w2) = false /\ App.interval w2 = true) /\
  (Legacy.isLoading (Legacy.ui l1) = true /\ Legacy.error (Legacy.ui l1) = None /\
   Legacy.question (Legacy.ui l1) = None /\
   Legacy.selectedAnswer (Legacy.ui l1) = None /\
   Legacy.isAnswered (Legacy.ui l1) = false /\
   bool_decide (Legacy.issued l ∈ (Legacy.inflight l1).*1) = true /\
   Legacy.question (Legacy.ui l2) = Some data /\
   Legacy.selectedAnswer (Legacy.ui l2) = None /\
   Legacy.isAnswered (Legacy.ui l2) = false /\
   Legacy.isLoading (Legacy.ui l2) = false) /\
  (forall (s : App.Sys) (id : nat),
     App.is_inflight id s = true ->
     let s' := App.step (App.FetchSettled id (App.Fulfilled q)) s in
     App.question (App.ui s') = Some q /\ App.timeLeft (App.ui s') = 15 /\
     App.isLoading (App.ui s') = false /\
     App.selectedAnswer (App.ui s') = App.selectedAnswer (App.ui s) /\
     App.isAnswered (App.ui s') = App.isAnswered (App.ui s)) /\
  (forall (s : Legacy.Sys) (id : nat),
     bool_decide (id ∈ (Legacy.inflight s).*1) = true ->
     let s' := Legacy.step (Legacy.FetchSettled id r) s in
     Legacy.question (Legacy.ui s') = Some data /\
     Legacy.isLoading (Legacy.ui s') = false /\
     Legacy.selectedAnswer (Legacy.ui s') = Legacy.selectedAnswer (Legacy.ui s) /\
     Legacy.isAnswered (Legacy.ui s') = Legacy.isAnswered (Legacy.ui s)).
Proof.
  intros Hi Hes Hfl Hi' Hes' Hfl' Hv w1 w2 l1 l2.
  split; [|split; [|split]].
  - destruct (step_issues e w Hi)
      as (Hq & Hl & He & Hs & Ha & Hiv & rq & Hin & _).
    fold w1 in Hq, Hl, He, Hs, Ha, Hiv, Hin, Hfl.
    assert (Hfl1 : App.is_inflight (App.issued w) w1 = true).
    { unfold App.is_inflight. apply bool_decide_eq_true. rewrite Hin.
      rewrite fmap_app. apply elem_of_app. right. simpl. apply list_elem_of_here. }
    destruct (blank_run es w1 Hes (conj Hq (conj Hs Ha))) as (_ & Hs1 & Ha1).
    destruct (settle_fulfilled (App.issued w) q (App.run es w1) Hfl)
      as (Hq2 & Ht2 & Hl2 & Hs2 & Ha2 & _).
    fold w2 in Hq2, Ht2, Hl2, Hs2, Ha2.
    assert (Hc : timer_consistent w2).
    { now apply enabled_step_timer_consistent. }
    split_and!; auto; try congruence.
    unfold timer_consistent in Hc. rewrite Hc. unfold App.timerEffect.
    rewrite Hq2, Hl2, Ha2, Ha1, Ht2. reflexivity.
  - destruct (legacy_step_issues e' l Hi')
      as (Hq & Hl & He & Hs & Ha & d & Hin & _).
    fold l1 in Hq, Hl, He, Hs, Ha, Hin, Hfl'.
    assert (Hfl1 : bool_decide (Legacy.issued l ∈ (Legacy.inflight l1).*1) = true).
    { apply bool_decide_eq_true. rewrite Hin.
      rewrite fmap_app. apply elem_of_app. right. simpl. apply list_elem_of_here. }
    destruct (legacy_blank_run es' l1 Hes' (conj Hq (conj Hs Ha)))
      as (_ & Hs1 & Ha1).
    destruct (legacy_settle_value (Legacy.issued l) r data
                (Legacy.run es' l1) Hfl' Hv)
      as (Hq2 & Hl2 & Hs2 & Ha2 & _).
    fold l2 in Hq2, Hl2, Hs2, Ha2.
    split_and!; auto; congruence.
  - intros s id Hin s'.
    destruct (settle_fulfilled id q s Hin) as (Hq2 & Ht2 & Hl2 & Hs2 & Ha2 & _).
    split_and!; auto.
  - intros s id Hin s'.
    destruct (legacy_settle_value id r data s Hin Hv) as (Hq2 & Hl2 & Hs2 & Ha2 & _).
    split_and!; auto.
Qed.

Lemma fetch_transition_witness :
  App.isLoading (App.ui (App.step (App.SelectDifficulty Hard) difficultyScreen))
    = true /\
  App.question
    (App.ui (App.step (App.FetchSettled 0 (App.Fulfilled hardQuestion))
               (App.run [App.ChangeDifficulty; App.SelectDifficulty Easy]
                  (App.step (App.SelectDifficulty Hard) difficultyScreen))))
    = Some hardQuestion /\
  App.selectedAnswer
    (App.ui (App.step (App.FetchSettled 0 (App.Fulfilled hardQuestion))
               (App.run [App.ChangeDifficulty; App.SelectDifficulty Easy]
                  (App.step (App.SelectDifficulty Hard) difficultyScreen))))
    = None /\
  Legacy.question
    (Legacy.ui
       (Legacy.step
          (Legacy.FetchSettled 0 (Legacy.Response 200 (Legacy.Parsed twoPlusTwoData)))
          (Legacy.run [Legacy.ChangeDifficulty; Legacy.SelectDifficulty Hard]
             (Legacy.step (Legacy.SelectDifficulty Easy) Legacy.boot))))
    = Some twoPlusTwoData.
Proof.
  assert (H1 : App.issued (App.step (App.SelectDifficulty Hard) difficultyScreen)
               <> App.issued difficultyScreen) by (vm_compute; discriminate).
  assert (H2 : Forall (fun x => fulfils x = false)
                 [App.ChangeDifficulty; App.SelectDifficulty Easy])
    by (repeat constructor).
  assert (H3 : App.is_inflight (App.issued difficultyScreen)
                 (App.run [App.ChangeDifficulty; App.SelectDifficulty Easy]
                    (App.step (App.SelectDifficulty Hard) difficultyScreen)) = true)
    by (vm_compute; reflexivity).
  assert (H4 : Legacy.issued (Legacy.step (Legacy.SelectDifficulty Easy) Legacy.boot)
               <> Legacy.issued Legacy.boot) by (vm_compute; discriminate).
  assert (H5 : Forall (fun x => legacy_fulfils x = false)
                 [Legacy.ChangeDifficulty; Legacy.SelectDifficulty Hard])
    by (repeat constructor).
  assert (H6 : bool_decide
                 (Legacy.issued Legacy.boot ∈
                  (Legacy.inflight
                     (Legacy.run [Legacy.ChangeDifficulty; Legacy.SelectDifficulty Hard]
                        (Legacy.step (Legacy.SelectDifficulty Easy) Legacy.boot))).*1)
               = true) by (vm_compute; reflexivity).
  assert (H7 : Legacy.generateTriviaQuestion
                 (Legacy.Response 200 (Legacy.Parsed twoPlusTwoData))
               = Value twoPlusTwoData) by reflexivity.
  destruct (fetch_transition difficultyScreen (App.SelectDifficulty Hard)
              [App.ChangeDifficulty; App.SelectDifficulty Easy] hardQuestion
              Legacy.boot (Legacy.SelectDifficulty Easy)
              [Legacy.ChangeDifficulty; Legacy.SelectDifficulty Hard] _ _
              H1 H2 H3 H4 H5 H6 H7)
    as ((Hl & _ & _ & _ & _ & _ & _ & Hq2 & Hs2 & _)
        & (_ & _ & _ & _ & _ & _ & Hq & _) & _).
  split_and!; [exact Hl | exact Hq2 | exact Hs2 | exact Hq].
Defined.


(** * The question client of [src/unnamed/part_000] *)

(** The conversion of a payload that is not a text. *)
Lemma toString_samples :
  toString (JNum 429) = Value "429"%string /\
  toString (JNum (2 ^ 53 + 1)) = Value "9007199254740992"%string /\
  toString (JNum (2 ^ 64 - 1)) = Value "18446744073709552000"%string /\
  toString (JNum (10 ^ 21)) = Value "1e+21"%string /\
  toString (JNum (- 123456789012345678901234567890))
    = Value "-1.2345678901234568e+29"%string /\
  toString (JNum (2 ^ 1024)) = Value "Infinity"%string /\
  toString (JArr [JNum 1; JNull; JStr "a"; JArr [JBool true; JNum 2]])
    = Value "1,,a,true,2"%string /\
  toString (JObj [("code", JNum 7)]%string) = Value "[object Object]"%string /\
  toString (JObj [("toString", JStr "x")]%string)
    = Throws "Cannot convert object to primitive value".
Proof. split_and!; vm_compute; reflexivity. Qed.

Lemma typeof_string (v : JSValue) :
  bool_decide (typeof v = "string"%string) =
  match v with Some (JStr _) => true | _ => false end.
Proof. destruct v as [[]|]; reflexivity. Qed.

Lemma typeof_object (v : JSValue) :
  bool_decide (typeof v = "object"%string) =
  match v with
  | Some JNull | Some (JArr _) | Some (JObj _) => true
  | _ => false
  end.
Proof. destruct v as [[]|]; reflexivity. Qed.

Lemma isAnswerKey_spec (v : JSValue) :
  isAnswerKey v = true <-> exists k, v = Some (JStr (key_string k)).
Proof.
  split.
  - destruct v as [[]|]; simpl; try discriminate.
    intros H. apply bool_decide_eq_true in H.
    rewrite !elem_of_cons in H.
    destruct H as [->|[->|[->|[->|H]]]];
      [exists KeyA | exists KeyB | exists KeyC | exists KeyD | inversion H];
      reflexivity.
  - intros [k ->]. now destruct k.
Qed.

(** A text is truthy exactly when it is not empty. *)
Lemma truthy_text (s : string) : truthy (Some (JStr s)) = true <-> s <> ""%string.
Proof.
  simpl. rewrite negb_true_iff, bool_decide_eq_false. tauto.
Qed.

Lemma truthy_Some (v : JSValue) : truthy v = true -> exists x, v = Some x.
Proof. destruct v; [eauto | discriminate]. Qed.

Lemma validShape_accepts (data : JSON) :
  Legacy.validShape (Some data) = Value true <-> acceptedShape data.
Proof.
  unfold Legacy.validShape, andThen, bindEval. split.
  - destruct data as [| | | | |fields]; simpl; try discriminate.
    rewrite typeof_string, typeof_object.
    destruct (field "question" fields) as [[| | |prompt| |]|] eqn:Eq;
      try discriminate.
    destruct (field "options" fields) as [[| | | | |ofields]|] eqn:Eo;
      simpl; try discriminate.
    destruct (truthy (field "A" ofields)) eqn:Ea; [|discriminate].
    destruct (truthy (field "B" ofields)) eqn:Eb; [|discriminate].
    destruct (truthy (field "C" ofields)) eqn:Ec; [|discriminate].
    destruct (truthy (field "D" ofields)) eqn:Ed; [|discriminate].
    intros [= Hk]. apply isAnswerKey_spec in Hk as [k Hk].
    destruct (truthy_Some _ Ea) as [a Ha], (truthy_Some _ Eb) as [b Hb],
             (truthy_Some _ Ec) as [c Hc], (truthy_Some _ Ed) as [d Hd].
    exists fields, prompt, ofields, a, b, c, d, k.
    rewrite Ha in Ea. rewrite Hb in Eb. rewrite Hc in Ec. rewrite Hd in Ed.
    split_and!; auto.
  - intros (fields & prompt & ofields & a & b & c & d & k & -> & Hq & Ho
            & Ha & Ta & Hb & Tb & Hc & Tc & Hd & Td & Hk).
    simpl. rewrite typeof_string, typeof_object, Hq, Ho. simpl.
    rewrite Ha, Ta, Hb, Tb, Hc, Tc, Hd, Td, Hk.
    f_equal. apply isAnswerKey_spec. eauto.
Qed.

(** C6, as stated, fails: a successful response whose prompt is the empty
    string and whose options are not texts passes the validation and is
    returned as the question. *)
Lemma empty_prompt_accepted :
  Legacy.generateTriviaQuestion (Legacy.Response 200 (Legacy.Parsed oddButAccepted))
  = Value oddButAccepted /\
  field "question" [("question", JStr ""); ("correctAnswer", JStr "B")]%string
  = Some (JStr "").
Proof. split; reflexivity. Qed.

(** C6, amended.  On a successful response whose body parses,
    [generateTriviaQuestion] returns the body exactly when it is an object
    whose [question] is a string (possibly empty), whose [options] is an
    object holding a truthy value (for a text: a non-empty one) under each of
    A, B, C and D, and whose [correctAnswer] is one of the four keys; every
    other body makes it throw an error whose message starts with
    "Could not load question. ", and when the validation condition is false
    (rather than throwing itself) the message is
    "Could not load question. The API returned data in an unexpected format." *)
Theorem response_validation (status : Z) (data : JSON) :
  Legacy.ok status = true ->
  let result := Legacy.generateTriviaQuestion
                  (Legacy.Response status (Legacy.Parsed data)) in
  (result = Value data <-> acceptedShape data) /\
  (forall q, result = Value q -> q = data /\ acceptedShape data) /\
  (~ acceptedShape data ->
   exists m, result = Throws ("Could not load question. " +:+ m)) /\
  (Legacy.validShape (Some data) = Value false ->
   result = Throws
     "Could not load question. The API returned data in an unexpected format.").
Proof.
  intros Hok result. subst result.
  unfold Legacy.generateTriviaQuestion, Legacy.tryBlock. rewrite Hok. simpl.
  pose proof (validShape_accepts data) as Hacc.
  destruct (Legacy.validShape (Some data)) as [[|]|m] eqn:Ev; simpl.
  - assert (Ha : acceptedShape data) by now apply Hacc.
    split_and!; try tauto; try discriminate.
    intros q [= <-]. auto.
  - assert (Hn : ~ acceptedShape data).
    { intros Ha. apply Hacc in Ha. discriminate. }
    split_and!; try (split; [discriminate | tauto]); try discriminate; eauto.
  - assert (Hn : ~ acceptedShape data).
    { intros Ha. apply Hacc in Ha. discriminate. }
    split_and!; try (split; [discriminate | tauto]); try discriminate; eauto.
Qed.

Lemma response_validation_witness :
  Legacy.generateTriviaQuestion (Legacy.Response 200 (Legacy.Parsed twoPlusTwoData))
    = Value twoPlusTwoData /\
  acceptedShape twoPlusTwoData /\
  Legacy.generateTriviaQuestion
    (Legacy.Response 200 (Legacy.Parsed (JObj [("question", JStr "2+2?")]%string)))
  = Throws "Could not load question. The API returned data in an unexpected format.".
Proof.
  destruct (response_validation 200 twoPlusTwoData eq_refl) as (H1 & _).
  destruct (response_validation 200 (JObj [("question", JStr "2+2?")]%string) eq_refl)
    as (_ & _ & _ & H2).
  split_and!.
  - reflexivity.
  - apply H1. reflexivity.
  - apply H2. reflexivity.
Defined.


(** ** Failed requests *)





(** * The service worker of [src/service-worker.js] *)

Lemma prefix_append (p s : string) :
  String.prefix p s = true <-> exists rest, s = p +:+ rest.
Proof.
  revert s. induction p as [|a p IH]; intros s; simpl.
  - split; [eauto | now destruct s].
  - destruct s as [|b s].
    + split; [discriminate | intros [rest H]; discriminate].
    + simpl. destruct (Ascii.ascii_dec a b) as [->|Hne].
      * rewrite IH. split; intros [rest H]; exists rest.
        -- simpl. now rewrite H.
        -- simpl in H. now injection H.
      * split; [discriminate | intros [rest H]]. simpl in H.
        injection H as Hab _. now elim Hne.
Qed.

(** [includes] finds exactly the strings that contain [sub]. *)
Lemma includes_spec (sub s : string) :
  ServiceWorker.includes sub s = true <->
  exists before after, s = before +:+ sub +:+ after.
Proof.
  induction s as [|a s IH].
  - change (ServiceWorker.includes sub "")
      with (String.prefix sub "" || false).
    rewrite orb_false_r, prefix_append. split.
    + intros [rest H]. exists ""%string, rest. exact H.
    + intros ([|b before] & after & H); [eauto | discriminate].
  - change (ServiceWorker.includes sub (String a s))
      with (String.prefix sub (String a s) || ServiceWorker.includes sub s).
    rewrite orb_true_iff, prefix_append, IH. split.
    + intros [[rest H]|(before & after & H)].
      * exists ""%string, rest. exact H.
      * exists (String a before), after. simpl. now rewrite H.
    + intros ([|b before] & after & H).
      * left. eauto.
      * right. exists before, after. simpl in H. now injection H.
Qed.

(** None of the URLs cached at installation is an API URL. *)
Lemma urlsToCache_static :
  forallb (fun u => negb (ServiceWorker.includes "/api/" u))
          ServiceWorker.urlsToCache = true.
Proof. reflexivity. Qed.

(** C9.  For a GET request whose URL contains "/api/", the fetch handler
    answers with the result of fetching the request from the network, and
    that fetch is all it does: no cache is looked up and none is written.
    Conversely, whenever the handler looks up or writes a cache, the request
    is a GET whose URL does not contain "/api/". *)
Theorem api_requests_bypass_cache
    (network : ServiceWorker.Request -> option ServiceWorker.Response)
    (caches : ServiceWorker.CacheStorage) (request : ServiceWorker.Request)
    (before after : string) :
  ServiceWorker.method request = "GET"%string ->
  ServiceWorker.url request = before +:+ "/api/" +:+ after ->
  ServiceWorker.onFetch network caches request
    = (ServiceWorker.RespondWith (network request), caches,
       [ServiceWorker.NetworkFetch request]) /\
  existsb ServiceWorker.touchesCache
          (ServiceWorker.onFetch network caches request).2 = false /\
  (forall (other : ServiceWorker.Request),
     existsb ServiceWorker.touchesCache
             (ServiceWorker.onFetch network caches other).2 = true \/
     (ServiceWorker.onFetch network caches other).1.2 <> caches ->
     ServiceWorker.method other = "GET"%string /\
     ServiceWorker.includes "/api/" (ServiceWorker.url other) = false).
Proof.
  intros Hm Hu.
  assert (Hinc : ServiceWorker.includes "/api/" (ServiceWorker.url request) = true).
  { apply includes_spec. eauto. }
  assert (Hrun : ServiceWorker.onFetch network caches request
    = (ServiceWorker.RespondWith (network request), caches,
       [ServiceWorker.NetworkFetch request])).
  { unfold ServiceWorker.onFetch.
    rewrite bool_decide_eq_true_2 by exact Hm. simpl. now rewrite Hinc. }
  split_and!.
  - exact Hrun.
  - now rewrite Hrun.
  - intros other. unfold ServiceWorker.onFetch.
    destruct (bool_decide_reflect (ServiceWorker.method other = "GET"%string))
      as [Hg|Hg]; simpl.
    + destruct (ServiceWorker.includes "/api/" (ServiceWorker.url other)); simpl.
      * intros [H|H]; [discriminate | now elim H].
      * auto.
    + intros [H|H]; [discriminate | now elim H].
Qed.

Lemma api_requests_bypass_cache_witness :
  ServiceWorker.onFetch sampleNetwork sampleCaches apiRequest
  = (ServiceWorker.RespondWith (sampleNetwork apiRequest), sampleCaches,
     [ServiceWorker.NetworkFetch apiRequest]).
Proof.
  apply (api_requests_bypass_cache sampleNetwork sampleCaches apiRequest
           "https://quiz.example" "generate-trivia" eq_refl eq_refl).
Defined.



(** * Further properties of the controller of [src/App.tsx] *)

Lemma handler_fields (e : App.Event) (s : App.State) :
  let s' := (App.handler e s).1 in
  (App.timeLeft s' = App.timeLeft s \/
   (e = App.TimerTick /\ App.timeLeft s' = App.timeLeft s - 1) \/
   (exists id q, e = App.FetchSettled id (App.Fulfilled q) /\
                 App.timeLeft s' = App.TIME_LIMIT)) /\
  (App.score s' = App.score s \/
   (exists k, e = App.SelectAnswer k /\ App.score s' = App.score s + 1) \/
   (App.score s' = 0 /\
    ((exists c, e = App.SelectCategory c) \/ (exists d, e = App.SelectDifficulty d) \/
     e = App.ChangeCategory \/ e = App.ChangeDifficulty))).
Proof.
  destruct e; simpl.
  - split; [auto | right; right; eauto].
  - split; [auto | right; right; eauto 6].
  - pose proof (handleAnswerSelect_fields k s) as (_ & _ & _ & _ & _ & Ht).
    split; [auto|]. unfold App.handleAnswerSelect.
    destruct (App.isAnswered s); [auto|].
    destruct (bool_decide _); simpl; eauto.
  - pose proof (fetchNewQuestion_start_fields s) as (Hs & _ & _ & Ht & _). auto.
  - split; [auto | right; right; auto].
  - split; [auto | right; right; auto 6].
  - split; [right; left; auto | auto].
  - destruct r; simpl; split; auto. right; right; eauto.
Qed.

Lemma step_fields (e : App.Event) (w : App.Sys) :
  App.enabled e w = true ->
  let s1 := (App.handler e (App.ui w)).1 in
  App.timeLeft (App.ui (App.step e w)) = App.timeLeft s1 /\
  App.score (App.ui (App.step e w)) = App.score s1.
Proof.
  intros He. unfold App.step. rewrite He.
  destruct (App.handler e (App.ui w)) as [s1 r1]. simpl.
  pose proof (fetchEffect_fields (App.ui w) s1) as (Hs & _ & _ & Ht & _).
  destruct (App.fetchEffect (App.ui w) s1) as [s2 r2]. simpl in *.
  pose proof (runTimerEffect_fields s2) as (_ & Hs' & _ & _ & _ & _ & _ & Ht' & _).
  destruct (App.runTimerEffect s2) as [s3 iv]. simpl in *.
  destruct (App.issue r2 _). simpl. split; congruence.
Qed.

Lemma interval_counting (w : App.Sys) :
  timer_consistent w -> App.interval w = true ->
  counting (App.ui w) /\ 0 < App.timeLeft (App.ui w).
Proof.
  unfold timer_consistent, counting, App.timerEffect. intros -> H.
  destruct (App.question (App.ui w)); simpl in H; [|discriminate].
  destruct (App.isAnswered (App.ui w)); simpl in H; [discriminate|].
  destruct (App.isLoading (App.ui w)); simpl in H; [discriminate|].
  destruct (Z.leb_spec (App.timeLeft (App.ui w)) 0); [discriminate|].
  split_and!; auto.
Qed.



Lemma tick_step (w : App.Sys) :
  timer_consistent w -> App.interval w = true ->
  let w' := App.step App.TimerTick w in
  timer_consistent w' /\
  App.timeLeft (App.ui w') = App.timeLeft (App.ui w) - 1 /\
  App.score (App.ui w') = App.score (App.ui w) /\
  App.selectedAnswer (App.ui w') = App.selectedAnswer (App.ui w) /\
  App.question (App.ui w') = App.question (App.ui w) /\
  App.isAnswered (App.ui w') = bool_decide (App.timeLeft (App.ui w) = 1) /\
  App.interval w' = negb (bool_decide (App.timeLeft (App.ui w) = 1)).
Proof.
  intros Hc Hi w'.
  destruct (interval_counting w Hc Hi) as [(Hq & Ha & Hl) Hpos].
  assert (Hc' : timer_consistent w') by now apply enabled_step_timer_consistent.
  assert (Hrt : App.runTimerEffect (App.tick (App.ui w)) =
                if bool_decide (App.timeLeft (App.ui w) = 1)
                then (App.setIsAnswered true (App.tick (App.ui w)), false)
                else (App.tick (App.ui w), true)).
  { unfold App.runTimerEffect, App.timerEffect. simpl. rewrite Ha, Hl.
    destruct (App.question (App.ui w)) as [q|]; [|now elim Hq]. simpl.
    destruct (Z.leb_spec (App.timeLeft (App.ui w) - 1) 0).
    - rewrite bool_decide_eq_true_2 by lia. reflexivity.
    - rewrite bool_decide_eq_false_2 by lia. reflexivity. }
  split; [exact Hc'|]. subst w'. rewrite step_quiet by auto. simpl.
  rewrite Hrt. destruct (bool_decide _); simpl; split_and!; auto.
Qed.

Lemma countdown_run (n : nat) (w : App.Sys) :
  timer_consistent w -> App.interval w = true ->
  Z.of_nat n <= App.timeLeft (App.ui w) ->
  let w' := App.run (repeat App.TimerTick n) w in
  App.timeLeft (App.ui w') = App.timeLeft (App.ui w) - Z.of_nat n /\
  App.score (App.ui w') = App.score (App.ui w) /\
  App.selectedAnswer (App.ui w') = App.selectedAnswer (App.ui w) /\
  App.question (App.ui w') = App.question (App.ui w) /\
  App.isAnswered (App.ui w') = bool_decide (Z.of_nat n = App.timeLeft (App.ui w)) /\
  App.interval w' = negb (bool_decide (Z.of_nat n = App.timeLeft (App.ui w))).
Proof.
  revert w. induction n as [|n IH]; intros w Hc Hi Hn.
  - destruct (interval_counting w Hc Hi) as [(Hq & Ha & Hl) Hpos].
    simpl. rewrite bool_decide_eq_false_2 by lia. rewrite Hi, Ha.
    split_and!; auto. lia.
  - simpl.
    destruct (tick_step w Hc Hi) as (Hc1 & Ht1 & Hs1 & Hsel1 & Hq1 & Ha1 & Hi1).
    destruct (decide (App.timeLeft (App.ui w) = 1)) as [H1|H1].
    + assert (n = 0%nat) by lia. subst n. simpl.
      rewrite Ha1, Hi1, Ht1, Hs1, Hsel1, Hq1.
      rewrite !bool_decide_eq_true_2 by lia. split_and!; auto.
    + rewrite bool_decide_eq_false_2 in Hi1, Ha1 by exact H1. simpl in Hi1.
      assert (Hn' : Z.of_nat n <= App.timeLeft (App.ui (App.step App.TimerTick w)))
        by lia.
      destruct (IH _ Hc1 Hi1 Hn') as (Ht & Hs & Hsel & Hq & Ha & Hi').
      rewrite Ht, Hs, Hsel, Hq, Ha, Hi', Ht1, Hs1, Hsel1, Hq1.
      split_and!; auto; try lia.
      * apply bool_decide_ext. lia.
      * f_equal. apply bool_decide_ext. lia.
Qed.

(** X2.  While the countdown runs, [n] ticks (as many as, or fewer than, the
    seconds left) take [n] off the time left and change neither the score,
    the selection nor the question; the round is marked answered, and the
    interval gone, exactly when the ticks used up all the time left. *)
Theorem countdown (n : nat) (w : App.Sys) :
  App.reachable w -> App.interval w = true ->
  Z.of_nat n <= App.timeLeft (App.ui w) ->
  let w' := App.run (repeat App.TimerTick n) w in
  App.timeLeft (App.ui w') = App.timeLeft (App.ui w) - Z.of_nat n /\
  App.score (App.ui w') = App.score (App.ui w) /\
  App.selectedAnswer (App.ui w') = App.selectedAnswer (App.ui w) /\
  App.question (App.ui w') = App.question (App.ui w) /\
  App.isAnswered (App.ui w') = bool_decide (Z.of_nat n = App.timeLeft (App.ui w)) /\
  App.interval w' = negb (bool_decide (Z.of_nat n = App.timeLeft (App.ui w))).
Proof.
  intros Hr. apply countdown_run. now apply reachable_timer_consistent.
Qed.

Lemma countdown_witness :
  App.isAnswered (App.ui (App.run (repeat App.TimerTick 15) roundOpen)) = true /\
  App.isAnswered (App.ui (App.run (repeat App.TimerTick 14) roundOpen)) = false.
Proof.
  assert (Hr : App.reachable roundOpen).
  { exists [App.SelectCategory "Science"; App.SelectDifficulty Easy;
            App.FetchSettled 0 (App.Fulfilled twoPlusTwo)]. reflexivity. }
  split.
  - destruct (countdown 15 roundOpen Hr eq_refl) as (_ & _ & _ & _ & H & _);
      [vm_compute; discriminate | exact H].
  - destruct (countdown 14 roundOpen Hr eq_refl) as (_ & _ & _ & _ & H & _);
      [vm_compute; discriminate | exact H].
Defined.

Lemma step_score (e : App.Event) (w : App.Sys) :
  let w' := App.step e w in
  App.score (App.ui w') = App.score (App.ui w) \/
  (exists k q, e = App.SelectAnswer k /\ App.isAnswered (App.ui w) = false /\
     App.question (App.ui w) = Some q /\ k = TriviaQuestion.correctAnswer q /\
     App.score (App.ui w') = App.score (App.ui w) + 1) \/
  (App.score (App.ui w') = 0 /\
   ((exists c, e = App.SelectCategory c) \/ (exists d, e = App.SelectDifficulty d) \/
    e = App.ChangeCategory \/ e = App.ChangeDifficulty)).
Proof.
  simpl. destruct (App.enabled e w) eqn:He;
    [|unfold App.step; rewrite He; auto].
  destruct (step_fields e w He) as [_ ->].
  destruct (handler_fields e (App.ui w)) as [_ [H|[(k & -> & H)|H]]]; auto.
  right. left. revert H. simpl. unfold App.handleAnswerSelect.
  destruct (App.isAnswered (App.ui w)); [intros; lia|].
  destruct (App.question (App.ui w)) as [q|]; simpl.
  - destruct (bool_decide_reflect (Some k = Some (TriviaQuestion.correctAnswer q)))
      as [[= Hk]|_]; simpl; [|intros; lia].
    intros _. exists k, q. auto.
  - intros; lia.
Qed.

(** X3.  The score is never negative, and one turn of the event loop either
    leaves it as it is, or adds exactly 1 (only for an answer, on an
    unanswered round, that equals the question's [correctAnswer]), or resets
    it to 0 (only for a category or difficulty selection or reset). *)
Theorem score_changes (e : App.Event) (w : App.Sys) :
  App.reachable w ->
  let w' := App.step e w in
  0 <= App.score (App.ui w) /\
  (App.score (App.ui w') = App.score (App.ui w) \/
   (exists k q, e = App.SelectAnswer k /\ App.isAnswered (App.ui w) = false /\
      App.question (App.ui w) = Some q /\ k = TriviaQuestion.correctAnswer q /\
      App.score (App.ui w') = App.score (App.ui w) + 1) \/
   (App.score (App.ui w') = 0 /\
    ((exists c, e = App.SelectCategory c) \/ (exists d, e = App.SelectDifficulty d) \/
     e = App.ChangeCategory \/ e = App.ChangeDifficulty))).
Proof.
  intros Hr. split; [|apply step_score].
  revert w Hr. apply (reachable_invariant (fun w => 0 <= App.score (App.ui w))).
  - reflexivity.
  - intros e' w Hw.
    destruct (step_score e' w) as [->|[(k & q & _ & _ & _ & _ & ->)|[-> _]]]; lia.
Qed.

Lemma score_changes_witness :
  0 <= App.score (App.ui roundAnswered) /\
  App.score (App.ui (App.step App.ChangeDifficulty
                       (App.step (App.SelectAnswer KeyB) roundOpen))) = 0.
Proof.
  assert (Hr : App.reachable roundAnswered).
  { exists [App.SelectCategory "Science"; App.SelectDifficulty Easy;
            App.FetchSettled 0 (App.Fulfilled twoPlusTwo); App.SelectAnswer KeyC].
    vm_compute. reflexivity. }
  split.
  - apply (score_changes App.TimerTick roundAnswered Hr).
  - vm_compute. reflexivity.
Defined.

Lemma step_difficulty_under_category (e : App.Event) (w : App.Sys) :
  difficulty_under_category (App.ui w) ->
  difficulty_under_category (App.ui (App.step e w)).
Proof.
  unfold difficulty_under_category, App.step. intros Hw.
  destruct (App.enabled e w) eqn:He; [|exact Hw].
  assert (H1 : truthy_obj (App.difficulty (App.handler e (App.ui w)).1) = true ->
               truthy_string (App.category (App.handler e (App.ui w)).1) = true).
  { destruct e; simpl; try discriminate; auto.
    - intros _. simpl in He. unfold App.showsDifficultySelector in He.
      now apply andb_true_iff in He as [He _].
    - pose proof (handleAnswerSelect_fields k (App.ui w))
        as (_ & _ & _ & Hc & Hd & _). simpl in *. now rewrite Hc, Hd.
    - pose proof (fetchNewQuestion_start_fields (App.ui w))
        as (_ & Hc & Hd & _). simpl in *. now rewrite Hc, Hd.
    - destruct r; auto. }
  destruct (App.handler e (App.ui w)) as [s1 r1]. simpl in H1.
  pose proof (fetchEffect_fields (App.ui w) s1) as (_ & Hc & Hd & _).
  destruct (App.fetchEffect (App.ui w) s1) as [s2 r2]. simpl in *.
  pose proof (runTimerEffect_fields s2) as (_ & _ & _ & _ & _ & Hc' & Hd' & _).
  destruct (App.runTimerEffect s2) as [s3 iv]. simpl in *.
  destruct (App.issue r2 _). simpl. rewrite Hc', Hd', Hc, Hd. exact H1.
Qed.

(** X4.  In every reachable state a difficulty is set only while a category
    is set, so the guard at the top of [fetchNewQuestion] never stops the
    Skip / Next Question button: whenever the button is enabled, pressing it
    issues a request for the difficulty and the category on screen, with the
    state prepared for loading and the score kept. *)
Theorem next_always_fetches (w : App.Sys) :
  App.reachable w ->
  App.nextButtonEnabled (App.ui w) = true ->
  let w' := App.step App.NextQuestion w in
  exists d c,
    App.difficulty (App.ui w) = Some d /\ App.category (App.ui w) = Some c /\
    c <> ""%string /\
    App.inflight w' = App.inflight w ++ [(App.issued w, App.mkRequest d c)] /\
    App.isLoading (App.ui w') = true /\ App.question (App.ui w') = None /\
    App.error (App.ui w') = None /\ App.isAnswered (App.ui w') = false /\
    App.score (App.ui w') = App.score (App.ui w).
Proof.
  intros Hr.
  assert (Hinv : difficulty_under_category (App.ui w)).
  { revert w Hr.
    apply (reachable_invariant (fun w => difficulty_under_category (App.ui w)));
      [discriminate | apply step_difficulty_under_category]. }
  intros Hen w'.
  unfold App.nextButtonEnabled in Hen. apply andb_true_iff in Hen as [Hd Hl].
  specialize (Hinv Hd).
  destruct (App.difficulty (App.ui w)) as [d|] eqn:Ed; [|discriminate].
  destruct (App.category (App.ui w)) as [c|] eqn:Ec; [|discriminate].
  exists d, c. simpl in Hinv. apply negb_true_iff in Hinv.
  assert (Hc : c <> ""%string) by now apply bool_decide_eq_false in Hinv.
  subst w'. unfold App.step, App.enabled, App.nextButtonEnabled.
  rewrite Ed, Hl. simpl.
  unfold App.fetchNewQuestion_start. rewrite Ed, Ec. simpl. rewrite Hinv. simpl.
  rewrite fetchEffect_same by reflexivity. simpl. split_and!; auto.
Qed.

Lemma next_always_fetches_witness :
  App.inflight (App.step App.NextQuestion roundAnswered)
  = [(1%nat, App.mkRequest Easy "Science")].
Proof.
  assert (Hr : App.reachable roundAnswered).
  { exists [App.SelectCategory "Science"; App.SelectDifficulty Easy;
            App.FetchSettled 0 (App.Fulfilled twoPlusTwo); App.SelectAnswer KeyC].
    vm_compute. reflexivity. }
  destruct (next_always_fetches roundAnswered Hr eq_refl)
    as (d & c & Hd & Hc & _ & Hin & _).
  vm_compute in Hd, Hc. injection Hd as <-. injection Hc as <-. exact Hin.
Defined.

Lemma handler_isLoading (e : App.Event) (s : App.State) :
  (App.handler e s).2 = None ->
  (exists id r, e = App.FetchSettled id r /\ App.isLoading (App.handler e s).1 = false) \/
  ((forall id r, e <> App.FetchSettled id r) /\
   App.isLoading (App.handler e s).1 = App.isLoading s).
Proof.
  destruct e; simpl; intros Hr; try (right; split; [discriminate | reflexivity]).
  - right. split; [discriminate|]. apply handleAnswerSelect_fields.
  - right. split; [discriminate|].
    pose proof (fetchNewQuestion_start_fields s) as (_ & _ & _ & _ & H).
    destruct H as [[-> _]|(_ & _ & _ & _ & _ & [x Hx])]; [reflexivity|].
    congruence.
  - left. exists id, r. split; [reflexivity|]. now destruct r.
Qed.

Lemma step_loading_inflight (e : App.Event) (w : App.Sys) :
  (App.isLoading (App.ui w) = true -> App.inflight w <> []) ->
  App.isLoading (App.ui (App.step e w)) = true -> App.inflight (App.step e w) <> [].
Proof.
  intros Hw.
  destruct (decide (App.issued (App.step e w) = App.issued w)) as [Heq|Hne].
  - revert Heq. unfold App.step.
    destruct (App.enabled e w) eqn:He; [|intros _; exact Hw].
    pose proof (handler_isLoading e (App.ui w)) as Hh.
    destruct (App.handler e (App.ui w)) as [s1 r1]. simpl in Hh.
    pose proof (fetchEffect_fields (App.ui w) s1) as (_ & _ & _ & _ & Hf).
    destruct (App.fetchEffect (App.ui w) s1) as [s2 r2]. simpl in Hf.
    pose proof (runTimerEffect_fields s2) as (_ & _ & Hl & _).
    destruct (App.runTimerEffect s2) as [s3 iv]. simpl in Hl.
    destruct r1 as [r1|], r2 as [r2|]; simpl; try (intros; lia).
    intros _. rewrite Hl.
    destruct Hf as [[-> _]|(_ & _ & _ & _ & _ & [x Hx])]; [|discriminate].
    destruct (Hh eq_refl) as [(id & r & -> & Hfalse)|[Hns Hsame]].
    + congruence.
    + rewrite Hsame. destruct e; try exact Hw. now elim (Hns id r).
  - intros _. destruct (step_issues e w Hne) as (_ & _ & _ & _ & _ & _ & r & -> & _).
    intros H. now apply app_eq_nil in H as [_ H].
Qed.

(** X5.  In every reachable state that is loading there is no question in
    the state, no timer interval, no quiz card to answer and no enabled Skip /
    Next Question button, at least one request is in flight, and an answer
    or a press of the button changes nothing. *)
Theorem loading_shows_nothing (w : App.Sys) (k : AnswerKey) :
  App.reachable w ->
  App.isLoading (App.ui w) = true ->
  App.question (App.ui w) = None /\ App.interval w = false /\
  App.showsQuizCard (App.ui w) = false /\
  App.nextButtonEnabled (App.ui w) = false /\
  App.inflight w <> [] /\
  App.step (App.SelectAnswer k) w = w /\ App.step App.NextQuestion w = w.
Proof.
  intros Hr.
  assert (Hin : App.isLoading (App.ui w) = true -> App.inflight w <> []).
  { revert w Hr.
    apply (reachable_invariant
             (fun w => App.isLoading (App.ui w) = true -> App.inflight w <> []));
      [discriminate | apply step_loading_inflight]. }
  intros Hl.
  pose proof (reachable_loading_blank w Hr Hl) as Hq.
  pose proof (reachable_timer_consistent w Hr) as Hc.
  assert (Hcard : App.showsQuizCard (App.ui w) = false).
  { unfold App.showsQuizCard. rewrite Hl. simpl.
    now rewrite andb_false_r. }
  assert (Hnext : App.nextButtonEnabled (App.ui w) = false).
  { unfold App.nextButtonEnabled. rewrite Hl. now rewrite andb_false_r. }
  split_and!; auto.
  - unfold timer_consistent in Hc. rewrite Hc. unfold App.timerEffect.
    now rewrite Hq.
  - unfold App.step. simpl. now rewrite Hcard.
  - unfold App.step. simpl. now rewrite Hnext.
Qed.

Lemma loading_shows_nothing_witness :
  App.step (App.SelectAnswer KeyA)
           (App.step (App.SelectDifficulty Hard) difficultyScreen)
  = App.step (App.SelectDifficulty Hard) difficultyScreen.
Proof.
  assert (Hr : App.reachable (App.step (App.SelectDifficulty Hard) difficultyScreen)).
  { exists [App.SelectCategory "Science"; App.SelectDifficulty Hard].
    vm_compute. reflexivity. }
  assert (Hl : App.isLoading
                 (App.ui (App.step (App.SelectDifficulty Hard) difficultyScreen))
               = true) by (vm_compute; reflexivity).
  pose proof (loading_shows_nothing _ KeyA Hr Hl) as (_ & _ & _ & _ & _ & H & _).
  exact H.
Defined.

(** X6.  A failed fetch is recoverable: when a request fails while a
    difficulty and a category are set, loading ends with the fixed error
    text, the score and the question of the state untouched and the quiz card
    hidden; the Skip / Next Question button is enabled, and pressing it
    clears the error and issues a request for the same difficulty and
    category. *)
Theorem failed_fetch_recoverable
    (w : App.Sys) (id : nat) (d : Difficulty) (c : string) :
  App.difficulty (App.ui w) = Some d -> App.category (App.ui w) = Some c ->
  c <> ""%string -> App.is_inflight id w = true ->
  let w1 := App.step (App.FetchSettled id App.Rejected) w in
  let w2 := App.step App.NextQuestion w1 in
  App.error (App.ui w1)
    = Some "Failed to generate a new question. Please try again."%string /\
  App.isLoading (App.ui w1) = false /\
  App.score (App.ui w1) = App.score (App.ui w) /\
  App.question (App.ui w1) = App.question (App.ui w) /\
  App.showsQuizCard (App.ui w1) = false /\
  App.enabled App.NextQuestion w1 = true /\
  App.error (App.ui w2) = None /\ App.isLoading (App.ui w2) = true /\
  App.inflight w2
    = filter (fun p => p.1 <> id) (App.inflight w) ++ [(App.issued w, App.mkRequest d c)].
Proof.
  intros Hd Hc Hne Hin w1 w2.
  assert (Hw1 : w1 =
    {| App.ui := (App.runTimerEffect
                    (App.fetchNewQuestion_settle App.Rejected (App.ui w))).1;
       App.interval := (App.runTimerEffect
                    (App.fetchNewQuestion_settle App.Rejected (App.ui w))).2;
       App.inflight := filter (fun p => p.1 <> id) (App.inflight w);
       App.issued := App.issued w |}).
  { subst w1. now rewrite step_quiet. }
  pose proof (runTimerEffect_fields
                (App.fetchNewQuestion_settle App.Rejected (App.ui w)))
    as (Hq & Hs & Hl & He & _ & Hcat & Hdif & _).
  simpl in Hq, Hs, Hl, He, Hcat, Hdif.
  assert (Hcard : App.showsQuizCard (App.ui w1) = false).
  { rewrite Hw1. unfold App.showsQuizCard. simpl. rewrite He. simpl.
    now rewrite andb_false_r. }
  assert (Hen : App.enabled App.NextQuestion w1 = true).
  { rewrite Hw1. simpl. unfold App.nextButtonEnabled. now rewrite Hdif, Hl, Hd. }
  assert (Hb : bool_decide (c = ""%string) = false)
    by now apply bool_decide_eq_false.
  assert (Hw2 : App.error (App.ui w2) = None /\ App.isLoading (App.ui w2) = true /\
    App.inflight w2 = App.inflight w1 ++ [(App.issued w1, App.mkRequest d c)]).
  { subst w2. unfold App.step. rewrite Hen. simpl.
    unfold App.fetchNewQuestion_start.
    rewrite Hw1. simpl. rewrite Hdif, Hcat, Hd, Hc. simpl. rewrite Hb. simpl.
    rewrite fetchEffect_same by reflexivity. simpl. auto. }
  destruct Hw2 as (He2 & Hl2 & Hin2).
  split_and!; auto; try (rewrite Hw1; simpl; congruence).
  rewrite Hin2, Hw1. reflexivity.
Qed.

Lemma failed_fetch_recoverable_witness :
  App.inflight
    (App.run [App.FetchSettled 0 App.Rejected; App.NextQuestion]
             (App.step (App.SelectDifficulty Hard) difficultyScreen))
  = [(1%nat, App.mkRequest Hard "Science")].
Proof.
  apply (failed_fetch_recoverable
           (App.step (App.SelectDifficulty Hard) difficultyScreen) 0 Hard "Science"
           eq_refl eq_refl).
  - discriminate.
  - reflexivity.
Defined.


(** * Further properties of the difficulty-only build and its quiz card *)

Lemma generate_value (r : Legacy.Fetched) (data : JSON) :
  Legacy.generateTriviaQuestion r = Value data ->
  exists status,
    r = Legacy.Response status (Legacy.Parsed data) /\
    Legacy.ok status = true /\ acceptedShape data.
Proof.
  unfold Legacy.generateTriviaQuestion, Legacy.tryBlock.
  destruct r as [msg|status body]; [discriminate|].
  destruct (Legacy.ok status) eqn:Hok; simpl;
    [|destruct (Legacy.serverMessage status body); discriminate].
  destruct body as [d|msg]; [|discriminate]. simpl.
  destruct (Legacy.validShape (Some d)) as [[|]|m] eqn:Ev; simpl;
    try discriminate.
  intros [= <-]. exists status. split_and!; auto. now apply validShape_accepts.
Qed.

(** The validation condition of lines 153-158 throws only on reading a
    property of [null]: of the body itself, or of its [options]. *)
Lemma validShape_outcome (data : JSON) :
  match data with
  | JNull =>
      Legacy.validShape (Some data)
      = Throws "Cannot read properties of null (reading 'question')"
  | JObj fields =>
      match field "question" fields, field "options" fields with
      | Some (JStr _), Some JNull =>
          Legacy.validShape (Some data)
          = Throws "Cannot read properties of null (reading 'A')"
      | _, _ => exists b, Legacy.validShape (Some data) = Value b
      end
  | _ => Legacy.validShape (Some data) = Value false
  end.
Proof.
  destruct data as [| | | | |fields]; try reflexivity.
  unfold Legacy.validShape, andThen, bindEval. simpl.
  rewrite typeof_string, typeof_object.
  destruct (field "question" fields) as [[| | |prompt| |]|]; eauto.
  destruct (field "options" fields) as [[| | | | |ofields]|]; simpl; eauto.
  destruct (truthy (field "A" ofields)); eauto.
  destruct (truthy (field "B" ofields)); eauto.
  destruct (truthy (field "C" ofields)); eauto.
  destruct (truthy (field "D" ofields)); eauto.
Qed.

(** X7.  What [generateTriviaQuestion] does with every behaviour of the
    network.  A failed fetch and a failed parse of a successful response
    throw "Could not load question. " followed by their own message.  A
    successful response that parses is returned when it has the accepted
    shape; [null] and a body with a text [question] and [options: null]
    throw "Could not load question. " followed by the TypeError of the
    property read (in V8's wording); every other body throws
    "Could not load question. The API returned data in an unexpected format."
    A response that is not a success throws "Could not load question. "
    followed by a cause, which is the [error] payload when that is a
    non-empty text and "Server responded with status N" when it is absent
    or falsy. *)
Theorem generate_outcomes (r : Legacy.Fetched) :
  match r with
  | Legacy.NetworkFailure message =>
      Legacy.generateTriviaQuestion r
      = Throws ("Could not load question. " +:+ message)
  | Legacy.Response status body =>
      if Legacy.ok status then
        match body with
        | Legacy.Unparsable message =>
            Legacy.generateTriviaQuestion r
            = Throws ("Could not load question. " +:+ message)
        | Legacy.Parsed data =>
            (acceptedShape data /\
             Legacy.generateTriviaQuestion r = Value data) \/
            (data = JNull /\
             Legacy.generateTriviaQuestion r
             = Throws ("Could not load question. " +:+
                       "Cannot read properties of null (reading 'question')")) \/
            ((exists fields prompt,
                data = JObj fields /\
                field "question" fields = Some (JStr prompt) /\
                field "options" fields = Some JNull) /\
             Legacy.generateTriviaQuestion r
             = Throws ("Could not load question. " +:+
                       "Cannot read properties of null (reading 'A')")) \/
            (~ acceptedShape data /\ data <> JNull /\
             ~ (exists fields prompt,
                  data = JObj fields /\
                  field "question" fields = Some (JStr prompt) /\
                  field "options" fields = Some JNull) /\
             Legacy.generateTriviaQuestion r
             = Throws ("Could not load question. " +:+
                       "The API returned data in an unexpected format."))
        end
      else
        exists cause,
          Legacy.generateTriviaQuestion r
          = Throws ("Could not load question. " +:+ cause) /\
          (forall m, Legacy.errorPayload body = Some (JStr m) ->
             m <> ""%string -> cause = m) /\
          (truthy (Legacy.errorPayload body) = false ->
             cause = "Server responded with status " +:+ pretty status)
  end.
Proof.
  destruct r as [msg|status body]; [reflexivity|].
  unfold Legacy.generateTriviaQuestion, Legacy.tryBlock.
  destruct (Legacy.ok status) eqn:Hok; simpl.
  - destruct body as [data|msg]; [|reflexivity].
    pose proof (validShape_accepts data) as Hacc.
    pose proof (validShape_outcome data) as Hout.
    assert (Hfalse : Legacy.validShape (Some data) = Value false ->
      ~ acceptedShape data /\ data <> JNull /\
      ~ (exists fields prompt,
           data = JObj fields /\
           field "question" fields = Some (JStr prompt) /\
           field "options" fields = Some JNull)).
    { intros Ev. split_and!.
      - intros Ha. apply Hacc in Ha. congruence.
      - intros ->. discriminate.
      - intros (fields & prompt & -> & Hq & Ho). rewrite Hq, Ho in Hout.
        congruence. }
    destruct (Legacy.validShape (Some data)) as [[|]|m] eqn:Ev; simpl.
    + left. split; [now apply Hacc | reflexivity].
    + right. right. right. destruct (Hfalse eq_refl) as (H1 & H2 & H3).
      split_and!; auto.
    + right. destruct data as [| | | | |fields]; try discriminate.
      * left. split; [reflexivity|]. now injection Hout as <-.
      * right. left.
        destruct (field "question" fields) as [[| | |prompt| |]|] eqn:Eq;
          try (destruct Hout; discriminate).
        destruct (field "options" fields) as [[| | | | |ofields]|] eqn:Eo;
          try (destruct Hout; discriminate).
        split; [eauto|]. now injection Hout as <-.
  - exists (match Legacy.serverMessage status body with
            | Value m => m
            | Throws m => m
            end).
    split_and!.
    + now destruct (Legacy.serverMessage status body).
    + intros m Hp Hm. unfold Legacy.serverMessage. rewrite Hp.
      apply truthy_text in Hm. now rewrite Hm.
    + intros Hf. unfold Legacy.serverMessage. now rewrite Hf.
Qed.

Lemma legacy_answer_selects (e : Legacy.Event) (w : Legacy.Sys) :
  (Legacy.isAnswered (Legacy.ui w) = true ->
   Legacy.selectedAnswer (Legacy.ui w) <> None) ->
  Legacy.isAnswered (Legacy.ui (Legacy.step e w)) = true ->
  Legacy.selectedAnswer (Legacy.ui (Legacy.step e w)) <> None.
Proof.
  intros Hw. unfold Legacy.step. destruct (Legacy.enabled e w); [|exact Hw].
  assert (H1 : Legacy.isAnswered (Legacy.handler e (Legacy.ui w)).1 = true ->
               Legacy.selectedAnswer (Legacy.handler e (Legacy.ui w)).1 <> None).
  { assert (Hstart :
      Legacy.isAnswered (Legacy.fetchNewQuestion_start (Legacy.ui w)).1 = true ->
      Legacy.selectedAnswer (Legacy.fetchNewQuestion_start (Legacy.ui w)).1 <> None).
    { pose proof (legacy_start_fields (Legacy.ui w)) as (_ & _ & H).
      destruct H as [[-> _]|(_ & _ & _ & _ & Ha & _)]; [auto | congruence]. }
    destruct e; simpl; auto.
    - unfold Legacy.handleAnswerSelect.
      destruct (Legacy.isAnswered (Legacy.ui w)) eqn:E; [auto|].
      destruct (strictEqKey _ _); discriminate.
    - unfold Legacy.fetchNewQuestion_settle.
      destruct (Legacy.generateTriviaQuestion r); auto. }
  destruct (Legacy.handler e (Legacy.ui w)) as [s1 r1]. simpl in H1.
  pose proof (legacy_fetchEffect_fields (Legacy.ui w) s1) as (_ & _ & H2).
  destruct (Legacy.fetchEffect (Legacy.ui w) s1) as [s2 r2]. simpl in H2.
  destruct (Legacy.issue r2 _). simpl.
  destruct H2 as [[-> _]|(_ & _ & _ & _ & Ha & _)]; [auto | congruence].
Qed.

(** X8.  In the difficulty-only build, which has no timer, a round is
    answered exactly when an answer is selected: in every reachable state
    [isAnswered] holds if and only if [selectedAnswer] is present. *)
Theorem legacy_answered_iff_selected (w : Legacy.Sys) :
  Legacy.reachable w ->
  (Legacy.isAnswered (Legacy.ui w) = true <->
   Legacy.selectedAnswer (Legacy.ui w) <> None).
Proof.
  intros Hr. split.
  - revert w Hr.
    apply (legacy_reachable_invariant
             (fun w => Legacy.isAnswered (Legacy.ui w) = true ->
                       Legacy.selectedAnswer (Legacy.ui w) <> None));
      [discriminate | apply legacy_answer_selects].
  - now apply legacy_reachable_selection_answered.
Qed.

Lemma legacy_answered_iff_selected_witness :
  Legacy.selectedAnswer
    (Legacy.ui (Legacy.step (Legacy.SelectAnswer KeyC) legacyRoundOpen)) <> None.
Proof.
  apply (legacy_answered_iff_selected
           (Legacy.step (Legacy.SelectAnswer KeyC) legacyRoundOpen)).
  - exists [Legacy.SelectDifficulty Easy;
            Legacy.FetchSettled 0 (Legacy.Response 200 (Legacy.Parsed twoPlusTwoData));
            Legacy.SelectAnswer KeyC].
    vm_compute. reflexivity.
  - reflexivity.
Defined.

Lemma legacy_step_validated (e : Legacy.Event) (w : Legacy.Sys) :
  (forall data, Legacy.question (Legacy.ui w) = Some data -> acceptedShape data) ->
  forall data, Legacy.question (Legacy.ui (Legacy.step e w)) = Some data ->
               acceptedShape data.
Proof.
  intros Hw. unfold Legacy.step. destruct (Legacy.enabled e w); [|exact Hw].
  assert (H1 : forall data,
    Legacy.question (Legacy.handler e (Legacy.ui w)).1 = Some data ->
    acceptedShape data).
  { assert (Hstart : forall data,
      Legacy.question (Legacy.fetchNewQuestion_start (Legacy.ui w)).1 = Some data ->
      acceptedShape data).
    { pose proof (legacy_start_fields (Legacy.ui w)) as (_ & _ & H).
      destruct H as [[-> _]|(Hq & _)]; [auto | congruence]. }
    destruct e; simpl; auto.
    - pose proof (legacy_handleAnswerSelect_fields k (Legacy.ui w)) as (Hq & _).
      simpl in Hq. now rewrite Hq.
    - unfold Legacy.fetchNewQuestion_settle.
      destruct (Legacy.generateTriviaQuestion r) as [d|m] eqn:E; simpl; auto.
      intros data [= <-]. now destruct (generate_value r d E) as (_ & _ & _ & Ha). }
  destruct (Legacy.handler e (Legacy.ui w)) as [s1 r1]. simpl in H1.
  pose proof (legacy_fetchEffect_fields (Legacy.ui w) s1) as (_ & _ & H2).
  destruct (Legacy.fetchEffect (Legacy.ui w) s1) as [s2 r2]. simpl in H2.
  destruct (Legacy.issue r2 _). simpl.
  destruct H2 as [[-> _]|(Hq & _)]; [auto | congruence].
Qed.

(** X9.  Every question the difficulty-only controller ever holds passed the
    validation of [generateTriviaQuestion]: in every reachable state the
    question, when there is one, has the accepted shape. *)
Theorem legacy_question_validated (w : Legacy.Sys) (data : JSON) :
  Legacy.reachable w ->
  Legacy.question (Legacy.ui w) = Some data ->
  acceptedShape data.
Proof.
  intros Hr. revert data. revert w Hr.
  apply (legacy_reachable_invariant
           (fun w => forall data, Legacy.question (Legacy.ui w) = Some data ->
                                  acceptedShape data));
    [discriminate | apply legacy_step_validated].
Qed.

Lemma legacy_question_validated_witness : acceptedShape twoPlusTwoData.
Proof.
  apply (legacy_question_validated legacyRoundOpen twoPlusTwoData).
  - exists [Legacy.SelectDifficulty Easy;
            Legacy.FetchSettled 0 (Legacy.Response 200 (Legacy.Parsed twoPlusTwoData))].
    reflexivity.
  - reflexivity.
Defined.

Lemma strictEqString_spec (key : string) (v : JSValue) :
  QuizCard.strictEqString key v = true <-> v = Some (JStr key).
Proof.
  destruct v as [[]|]; simpl; try (split; [discriminate | congruence]).
  rewrite bool_decide_eq_true. split; [now intros -> | now intros [= ->]].
Qed.

Lemma class_strings_distinct :
  QuizCard.correctClass <> QuizCard.idleClass /\
  QuizCard.incorrectClass <> QuizCard.idleClass /\
  QuizCard.fadedClass <> QuizCard.idleClass /\
  QuizCard.correctClass <> QuizCard.incorrectClass /\
  QuizCard.correctClass <> QuizCard.fadedClass /\
  QuizCard.incorrectClass <> QuizCard.fadedClass.
Proof.
  split_and!;
    match goal with |- ?a <> ?b =>
      apply (bool_decide_eq_false_1 (a = b)); vm_compute; reflexivity
    end.
Qed.

(** X10.  The class of an answer button: before the round is answered every
    button has the idle class; afterwards no button has it, a button has the
    "correct" class exactly when its key is the question's [correctAnswer],
    the "incorrect" class exactly when its key is the selected answer and not
    the correct one, and the faded class in every other case. *)
Theorem button_classes
    (correct : JSValue) (selected : option AnswerKey) (key : string) :
  let cls := QuizCard.getButtonClass correct selected true key in
  QuizCard.getButtonClass correct selected false key = QuizCard.idleClass /\
  cls <> QuizCard.idleClass /\
  (cls = QuizCard.correctClass <-> correct = Some (JStr key)) /\
  (cls = QuizCard.incorrectClass <->
     correct <> Some (JStr key) /\
     exists k, selected = Some k /\ key = key_string k) /\
  (cls = QuizCard.fadedClass <->
     correct <> Some (JStr key) /\
     forall k, selected = Some k -> key <> key_string k).
Proof.
  destruct class_strings_distinct as (Hci & Hii & Hfi & Hcx & Hcf & Hxf).
  simpl. split; [reflexivity|].
  unfold QuizCard.getButtonClass. simpl.
  pose proof (strictEqString_spec key correct) as Hs.
  destruct (QuizCard.strictEqString key correct) eqn:Ec; simpl.
  - assert (Hc : correct = Some (JStr key)) by now apply Hs.
    split_and!; auto.
    + tauto.
    + split; [intros H; now elim Hcx | intros [H _]; now elim H].
    + split; [intros H; now elim Hcf | intros [H _]; now elim H].
  - assert (Hc : correct <> Some (JStr key)).
    { intros H. apply Hs in H. discriminate. }
    destruct selected as [k|]; simpl.
    + destruct (bool_decide_reflect (key = key_string k)) as [Hk|Hk]; simpl.
      * split_and!; auto.
        -- split; [intros H; symmetry in H; now elim Hcx | tauto].
        -- split; [eauto | reflexivity].
        -- split; [intros H; now elim Hxf|].
           intros [_ H]. now elim (H k eq_refl).
      * split_and!; auto.
        -- split; [intros H; symmetry in H; now elim Hcf | tauto].
        -- split; [intros H; symmetry in H; now elim Hxf|].
           intros (_ & k' & [= <-] & H). now elim Hk.
        -- split; [|reflexivity]. intros _. split; [exact Hc|].
           now intros k' [= <-].
    + split_and!; auto.
      * split; [intros H; symmetry in H; now elim Hcf | tauto].
      * split; [intros H; symmetry in H; now elim Hxf|].
        intros (_ & k' & H & _). discriminate.
      * split; [|reflexivity]. intros _. split; [exact Hc | discriminate].
Qed.

Lemma legacy_question_validated_shape (w : Legacy.Sys) (data : JSON) :
  Legacy.reachable w ->
  Legacy.question (Legacy.ui w) = Some data ->
  acceptedShape data.
Proof.
  intros Hr. revert data. revert w Hr.
  apply (legacy_reachable_invariant
           (fun w => forall data, Legacy.question (Legacy.ui w) = Some data ->
                                  acceptedShape data));
    [discriminate | apply legacy_step_validated].
Qed.

Lemma button_classes_at (correct : JSValue) (selected : option AnswerKey) :
  (forall key, correct = Some (JStr key) ->
     QuizCard.getButtonClass correct selected true key = QuizCard.correctClass) /\
  (forall key, correct <> Some (JStr key) /\
     (exists k, selected = Some k /\ key = key_string k) ->
     QuizCard.getButtonClass correct selected true key = QuizCard.incorrectClass) /\
  (forall key, correct <> Some (JStr key) /\
     (forall k, selected = Some k -> key <> key_string k) ->
     QuizCard.getButtonClass correct selected true key = QuizCard.fadedClass).
Proof.
  unfold QuizCard.getButtonClass. simpl. split_and!; intros key.
  - intros H. apply strictEqString_spec in H. now rewrite H.
  - intros (Hc & k & -> & ->).
    destruct (QuizCard.strictEqString (key_string k) correct) eqn:E.
    + apply strictEqString_spec in E. now elim Hc.
    + simpl. now rewrite bool_decide_eq_true_2.
  - intros (Hc & Hk).
    destruct (QuizCard.strictEqString key correct) eqn:E.
    + apply strictEqString_spec in E. now elim Hc.
    + simpl. destruct selected as [k|]; [|reflexivity].
      rewrite bool_decide_eq_false_2; [reflexivity|]. now apply Hk.
Qed.

Lemma key_string_inj (k k' : AnswerKey) : key_string k = key_string k' -> k = k'.
Proof. destruct k, k'; simpl; intros H; try reflexivity; discriminate. Qed.

(** X11.  Answering on the card of the difficulty-only build: in every
    reachable state that shows an unanswered card, the question has exactly
    one scoring key [k0] among A, B, C, D (its validated [correctAnswer]);
    after the answer [k] the card is still on display, answered, with [k]
    selected; the score grew by 1 exactly when [k] is [k0]; the feedback line
    congratulates exactly then; the button of [k0] has the "correct" class,
    the button of a wrong [k] the "incorrect" class, and every other button
    the faded class. *)
Theorem answer_shown_on_card (w : Legacy.Sys) (k : AnswerKey) :
  Legacy.reachable w ->
  Legacy.enabled (Legacy.SelectAnswer k) w = true ->
  exists data k0,
    Legacy.question (Legacy.ui w) = Some data /\
    QuizCard.correctAnswerOf data = Some (JStr (key_string k0)) /\
    let w' := Legacy.step (Legacy.SelectAnswer k) w in
    let class key :=
      QuizCard.getButtonClass (QuizCard.correctAnswerOf data)
        (Legacy.selectedAnswer (Legacy.ui w')) (Legacy.isAnswered (Legacy.ui w')) key in
    Legacy.renderContent (Legacy.ui w') = Legacy.QuizCard data (Some k) true /\
    (Legacy.score (Legacy.ui w') = Legacy.score (Legacy.ui w) + 1 <-> k = k0) /\
    (k <> k0 -> Legacy.score (Legacy.ui w') = Legacy.score (Legacy.ui w)) /\
    (QuizCard.feedback (QuizCard.correctAnswerOf data)
       (Legacy.selectedAnswer (Legacy.ui w')) (Legacy.isAnswered (Legacy.ui w'))
     = QuizCard.Congratulation <-> k = k0) /\
    class (key_string k0) = QuizCard.correctClass /\
    (k <> k0 -> class (key_string k) = QuizCard.incorrectClass) /\
    (forall key, key <> key_string k0 -> key <> key_string k ->
       class key = QuizCard.fadedClass).
Proof.
  intros Hr Hen.
  assert (Hshow : exists data,
    Legacy.question (Legacy.ui w) = Some data /\
    Legacy.isAnswered (Legacy.ui w) = false /\
    truthy_obj (Legacy.difficulty (Legacy.ui w)) = true /\
    Legacy.isLoading (Legacy.ui w) && negb (truthy_obj (Legacy.question (Legacy.ui w)))
      = false /\
    truthy_string (Legacy.error (Legacy.ui w)) = false).
  { revert Hen. unfold Legacy.enabled, Legacy.renderContent.
    destruct (truthy_obj (Legacy.difficulty (Legacy.ui w))); simpl;
      [|discriminate].
    destruct (Legacy.isLoading (Legacy.ui w) && _); [discriminate|].
    destruct (truthy_string (Legacy.error (Legacy.ui w))); [discriminate|].
    destruct (Legacy.question (Legacy.ui w)) as [data|]; [|discriminate].
    destruct (Legacy.isAnswered (Legacy.ui w)); [discriminate|]. eauto 6. }
  destruct Hshow as (data & Hq & Ha & Hd & Hl & He).
  destruct (legacy_question_validated_shape w data Hr Hq)
    as (fields & prompt & ofields & a & b & c & d & k0 & -> & _ & _ & _ & _
        & _ & _ & _ & _ & _ & _ & Hk).
  exists (JObj fields), k0.
  assert (Hcorrect : QuizCard.correctAnswerOf (JObj fields)
                     = Some (JStr (key_string k0))).
  { unfold QuizCard.correctAnswerOf. simpl. exact Hk. }
  split; [exact Hq|]. split; [exact Hcorrect|].
  intros w' class.
  assert (Hw' : Legacy.ui w' =
    (if bool_decide (key_string k0 = key_string k)
     then Legacy.setScore (fun prevScore => prevScore + 1)
     else fun s => s)
      (Legacy.setIsAnswered true (Legacy.setSelectedAnswer (Some k) (Legacy.ui w)))).
  { subst w'. rewrite legacy_step_answer by exact Hen. simpl.
    unfold Legacy.handleAnswerSelect. rewrite Ha, Hq. simpl. rewrite Hk. simpl.
    now destruct (bool_decide _). }
  assert (Hsel : Legacy.selectedAnswer (Legacy.ui w') = Some k /\
                 Legacy.isAnswered (Legacy.ui w') = true /\
                 Legacy.question (Legacy.ui w') = Some (JObj fields) /\
                 Legacy.difficulty (Legacy.ui w') = Legacy.difficulty (Legacy.ui w) /\
                 Legacy.isLoading (Legacy.ui w') = Legacy.isLoading (Legacy.ui w) /\
                 Legacy.error (Legacy.ui w') = Legacy.error (Legacy.ui w) /\
                 Legacy.score (Legacy.ui w') = Legacy.score (Legacy.ui w) +
                   (if bool_decide (key_string k0 = key_string k) then 1 else 0)).
  { rewrite Hw'. destruct (bool_decide _); simpl; split_and!; auto. lia. }
  destruct Hsel as (Hs' & Ha' & Hq' & Hd' & Hl' & He' & Hsc').
  assert (Hdec : bool_decide (key_string k0 = key_string k) = bool_decide (k = k0)).
  { apply bool_decide_ext. split; [intros H; symmetry; now apply key_string_inj
                                  | now intros ->]. }
  rewrite Hdec in Hsc'.
  destruct (button_classes_at (Some (JStr (key_string k0))) (Some k))
    as (Hgreen & Hred & Hfaded).
  subst class. simpl. rewrite Hs', Ha', Hcorrect.
  split_and!.
  - unfold Legacy.renderContent. rewrite Hd', Hl', He', Hq', Hd, He, Hs', Ha'.
    rewrite Hq in Hl. simpl in *. now rewrite Hl.
  - rewrite Hsc'. destruct (bool_decide_reflect (k = k0)); split; intros; auto; try lia.
    congruence.
  - intros Hne. rewrite Hsc'. rewrite bool_decide_eq_false_2 by exact Hne. lia.
  - unfold QuizCard.feedback, QuizCard.selectedIsCorrect. simpl.
    rewrite Hdec.
    destruct (bool_decide_reflect (k = k0)); split; intros; auto; try discriminate.
    congruence.
  - apply Hgreen. reflexivity.
  - intros Hne. apply Hred. split; [|eauto].
    intros [= H]. apply Hne. symmetry. now apply key_string_inj.
  - intros key Hk0 Hkk. apply Hfaded. split.
    + intros [= H]. now elim Hk0.
    + intros k' [= <-]. exact Hkk.
Qed.

Lemma answer_shown_on_card_witness :
  exists data k0,
    Legacy.question (Legacy.ui legacyRoundOpen) = Some data /\
    QuizCard.correctAnswerOf data = Some (JStr (key_string k0)).
Proof.
  assert (Hr : Legacy.reachable legacyRoundOpen).
  { exists [Legacy.SelectDifficulty Easy;
            Legacy.FetchSettled 0 (Legacy.Response 200 (Legacy.Parsed twoPlusTwoData))].
    reflexivity. }
  destruct (answer_shown_on_card legacyRoundOpen KeyB Hr eq_refl)
    as (data & k0 & Hq & Hc & _).
  exists data, k0. split; assumption.
Defined.


(** * Further properties of the service worker *)






Lemma cachesMatch_Some (caches : ServiceWorker.CacheStorage)
    (request : ServiceWorker.Request) (response : ServiceWorker.Response) :
  ServiceWorker.cachesMatch caches request = Some response ->
  exists name cache, (name, cache) ∈ caches /\
    cache !! ServiceWorker.cacheKey request = Some response.
Proof.
  induction caches as [|[n cache] rest IH]; simpl; [discriminate|].
  destruct (cache !! ServiceWorker.cacheKey request) eqn:E.
  - intros [= <-]. exists n, cache. split; [apply list_elem_of_here | exact E].
  - intros H. destruct (IH H) as (name & c & Hin & Hc).
    exists name, c. split; [now apply list_elem_of_further | exact Hc].
Qed.

Lemma cachesMatch_None (caches : ServiceWorker.CacheStorage)
    (request : ServiceWorker.Request) :
  (forall name cache, (name, cache) ∈ caches ->
     cache !! ServiceWorker.cacheKey request = None) ->
  ServiceWorker.cachesMatch caches request = None.
Proof.
  induction caches as [|[n cache] rest IH]; simpl; [reflexivity|].
  intros H. rewrite (H n cache) by apply list_elem_of_here.
  apply IH. intros name c Hin. apply (H name c). now apply list_elem_of_further.
Qed.

Lemma onActivate_elem (caches : ServiceWorker.CacheStorage) (name : string)
    (cache : gmap string ServiceWorker.Response) :
  (name, cache) ∈ ServiceWorker.onActivate caches <->
  (name, cache) ∈ caches /\ name = ServiceWorker.CACHE_NAME.
Proof.
  unfold ServiceWorker.onActivate. rewrite list_elem_of_filter. simpl.
  rewrite list_elem_of_singleton. tauto.
Qed.

(** X14.  Activation deletes exactly the caches of other versions: a cache is
    in the storage afterwards if and only if it was there under the current
    cache name, activating twice is activating once, and afterwards a request
    is found only if a cache of the current name holds it, so nothing stored
    by an older version is served any more. *)
Theorem activate_keeps_current_version
    (caches : ServiceWorker.CacheStorage) (name : string)
    (cache : gmap string ServiceWorker.Response)
    (request : ServiceWorker.Request) :
  ((name, cache) ∈ ServiceWorker.onActivate caches <->
   (name, cache) ∈ caches /\ name = ServiceWorker.CACHE_NAME) /\
  ServiceWorker.onActivate (ServiceWorker.onActivate caches)
    = ServiceWorker.onActivate caches /\
  (forall response,
     ServiceWorker.cachesMatch (ServiceWorker.onActivate caches) request
       = Some response ->
     exists current, (ServiceWorker.CACHE_NAME, current) ∈ caches /\
       current !! ServiceWorker.cacheKey request = Some response) /\
  ((forall current, (ServiceWorker.CACHE_NAME, current) ∈ caches ->
      current !! ServiceWorker.cacheKey request = None) ->
   ServiceWorker.cachesMatch (ServiceWorker.onActivate caches) request = None).
Proof.
  split_and!.
  - apply onActivate_elem.
  - unfold ServiceWorker.onActivate, ServiceWorker.CacheStorage. cbv zeta.
    rewrite list_filter_filter. apply list_filter_iff. intros x. tauto.
  - intros response H.
    destruct (cachesMatch_Some _ _ _ H) as (n & c & Hin & Hc).
    apply onActivate_elem in Hin as [Hin ->]. eauto.
  - intros H. apply cachesMatch_None. intros n c Hin.
    apply onActivate_elem in Hin as [Hin ->]. now apply H.
Qed.

Lemma firstNamed_open (name : string) (caches : ServiceWorker.CacheStorage) :
  is_Some (firstNamed name (cachesOpen name caches)).
Proof.
  unfold cachesOpen. destruct (bool_decide_reflect (name ∈ caches.*1)) as [Hin|Hout].
  - induction caches as [|[n cache] rest IH]; simpl in *.
    + inversion Hin.
    + destruct (bool_decide_reflect (n = name)); [eauto|].
      apply IH. apply elem_of_cons in Hin as [Hin|Hin]; [congruence | exact Hin].
  - induction caches as [|[n cache] rest IH]; simpl in *.
    + rewrite bool_decide_eq_true_2 by reflexivity. eauto.
    + destruct (bool_decide_reflect (n = name)); [eauto|].
      apply IH. intros Hin. apply Hout. now apply list_elem_of_further.
Qed.

Lemma firstNamed_put (name : string) (request : ServiceWorker.Request)
    (response : ServiceWorker.Response) (caches : ServiceWorker.CacheStorage)
    (cache : gmap string ServiceWorker.Response) :
  firstNamed name caches = Some cache ->
  firstNamed name (ServiceWorker.cachesPut name request response caches)
  = Some (<[ServiceWorker.cacheKey request := response]> cache).
Proof.
  induction caches as [|[n c] rest IH]; simpl; [discriminate|].
  destruct (bool_decide_reflect (n = name)) as [->|Hne]; simpl.
  - intros [= ->]. now rewrite bool_decide_eq_true_2.
  - intros H. rewrite bool_decide_eq_false_2 by exact Hne. now apply IH.
Qed.

Lemma firstNamed_addAll (name : string)
    (entries : list (ServiceWorker.Request * ServiceWorker.Response))
    (caches : ServiceWorker.CacheStorage)
    (cache : gmap string ServiceWorker.Response) :
  firstNamed name caches = Some cache ->
  firstNamed name
    (foldl (fun cs e => ServiceWorker.cachesPut name e.1 e.2 cs) caches entries)
  = Some (foldl (fun m e => <[ServiceWorker.cacheKey e.1 := e.2]> m) cache entries).
Proof.
  revert caches cache. induction entries as [|e entries IH];
    intros caches cache H; simpl; [exact H|].
  apply IH. now apply firstNamed_put.
Qed.

Lemma stored_lookup
    (entries : list (ServiceWorker.Request * ServiceWorker.Response))
    (cache : gmap string ServiceWorker.Response)
    (e : ServiceWorker.Request * ServiceWorker.Response) :
  NoDup (map (fun x => ServiceWorker.cacheKey x.1) entries) ->
  e ∈ entries ->
  foldl (fun m x => <[ServiceWorker.cacheKey x.1 := x.2]> m) cache entries
    !! ServiceWorker.cacheKey e.1 = Some e.2.
Proof.
  induction entries as [|x entries IH] using rev_ind.
  - intros _ He. inversion He.
  - rewrite map_app. simpl. intros Hnd He. rewrite foldl_app. simpl.
    apply NoDup_app in Hnd as (Hnd & Hfresh & _).
    apply elem_of_app in He as [He|He].
    + rewrite lookup_insert_ne; [now apply IH|].
      intros Hk. apply (Hfresh (ServiceWorker.cacheKey e.1)).
      * apply (list_elem_of_fmap_2 (fun x => ServiceWorker.cacheKey x.1)) in He.
        exact He.
      * rewrite Hk. apply list_elem_of_here.
    + apply list_elem_of_singleton in He. subst x. now rewrite lookup_insert_eq.
Qed.

Lemma addAll_entries
    (network : ServiceWorker.Request -> option ServiceWorker.Response)
    (requests : list ServiceWorker.Request)
    (entries : list (ServiceWorker.Request * ServiceWorker.Response)) :
  mapM (addAllFetch network) requests = Some entries ->
  map (fun x => ServiceWorker.cacheKey x.1) entries
    = map ServiceWorker.cacheKey requests /\
  forall r, r ∈ requests ->
    exists response, network r = Some response /\ (r, response) ∈ entries.
Proof.
  intros Hm. apply mapM_Some in Hm.
  assert (Hentry : forall r e, addAllFetch network r = Some e ->
                               e.1 = r /\ network r = Some e.2).
  { intros r e. unfold addAllFetch. destruct (network r) as [resp|]; [|discriminate].
    destruct (_ && _); [|discriminate]. intros [= <-]. auto. }
  induction Hm as [|r e requests entries Hf Hm IH]; simpl.
  - split; [reflexivity|]. intros r Hr. inversion Hr.
  - destruct IH as [IH1 IH2]. destruct (Hentry r e Hf) as [H1 H2].
    split; [now rewrite IH1, H1|].
    intros r' Hr'. apply elem_of_cons in Hr' as [->|Hr'].
    + exists e.2. split; [exact H2|]. rewrite <- H1 at 1.
      destruct e. apply list_elem_of_here.
    + destruct (IH2 r' Hr') as (resp & Hn & Hin).
      exists resp. split; [exact Hn | now apply list_elem_of_further].
Qed.

Lemma activate_match (caches : ServiceWorker.CacheStorage)
    (cache : gmap string ServiceWorker.Response)
    (request : ServiceWorker.Request) (response : ServiceWorker.Response) :
  firstNamed ServiceWorker.CACHE_NAME caches = Some cache ->
  cache !! ServiceWorker.cacheKey request = Some response ->
  ServiceWorker.cachesMatch (ServiceWorker.onActivate caches) request
  = Some response.
Proof.
  intros Hf Hc. unfold ServiceWorker.onActivate, ServiceWorker.CacheStorage in *.
  cbv zeta. induction caches as [|[n c] rest IH]; simpl in Hf; [discriminate|].
  rewrite filter_cons. simpl.
  destruct (bool_decide_reflect (n = ServiceWorker.CACHE_NAME)) as [->|Hne].
  - injection Hf as ->. rewrite decide_True by apply list_elem_of_here.
    simpl. now rewrite Hc.
  - rewrite decide_False; [now apply IH|].
    intros H. apply list_elem_of_singleton in H. now elim Hne.
Qed.

(** X16.  Offline availability: once the installation has succeeded and the
    worker is activated, every URL of [urlsToCache] (resolved, and not an API
    URL) is answered by the fetch handler from the cache, with the very
    response the installation fetched for it, without the network and
    whatever the network would answer, and the storage stays as it is. *)
Theorem precached_served_offline
    (network network' : ServiceWorker.Request -> option ServiceWorker.Response)
    (resolve : string -> string)
    (caches : ServiceWorker.CacheStorage) (u : string) :
  (onInstall network resolve caches).1 = true ->
  u ∈ ServiceWorker.urlsToCache ->
  ServiceWorker.includes "/api/" (resolve u) = false ->
  let request := ServiceWorker.mkRequest "GET" (resolve u) in
  let stored := ServiceWorker.onActivate (onInstall network resolve caches).2 in
  exists response,
    network request = Some response /\
    ServiceWorker.onFetch network' stored request
    = (ServiceWorker.RespondWith (Some response), stored,
       [ServiceWorker.CacheLookup request]).
Proof.
  intros Hok Hu Hapi request stored.
  destruct (firstNamed_open ServiceWorker.CACHE_NAME caches) as [cache0 Hc0].
  revert Hok stored. unfold onInstall, addAll.
  destruct (mapM (addAllFetch network) (installRequests resolve))
    as [entries|] eqn:Hm; [|discriminate].
  destruct (bool_decide_reflect
              (NoDup (map ServiceWorker.cacheKey (installRequests resolve))))
    as [Hnd|]; [|discriminate].
  intros _. cbv zeta. cbn [fst snd].
  destruct (addAll_entries network _ _ Hm) as [Hkeys Hall].
  rewrite <- Hkeys in Hnd.
  assert (Hin : request ∈ installRequests resolve).
  { unfold installRequests. apply list_elem_of_fmap. eauto. }
  destruct (Hall request Hin) as (response & Hn & He).
  exists response. split; [exact Hn|].
  assert (Hstored : ServiceWorker.cachesMatch
    (ServiceWorker.onActivate
       (foldl (fun cs e => ServiceWorker.cachesPut ServiceWorker.CACHE_NAME e.1 e.2 cs)
              (cachesOpen ServiceWorker.CACHE_NAME caches) entries)) request
    = Some response).
  { apply (activate_match _ _ _ _ (firstNamed_addAll _ entries _ _ Hc0)).
    exact (stored_lookup entries cache0 (request, response) Hnd He). }
  unfold ServiceWorker.onFetch. simpl. rewrite Hapi. now rewrite Hstored.
Qed.

Lemma precached_served_offline_witness :
  exists response,
    ServiceWorker.onFetch (fun _ => None)
      (ServiceWorker.onActivate (onInstall sampleNetwork sampleResolve sampleCaches).2)
      (ServiceWorker.mkRequest "GET" "https://quiz.example/index.html")
    = (ServiceWorker.RespondWith (Some response),
       ServiceWorker.onActivate (onInstall sampleNetwork sampleResolve sampleCaches).2,
       [ServiceWorker.CacheLookup
          (ServiceWorker.mkRequest "GET" "https://quiz.example/index.html")]).
Proof.
  assert (Hu : "/index.html"%string ∈ ServiceWorker.urlsToCache).
  { apply list_elem_of_further, list_elem_of_here. }
  destruct (precached_served_offline sampleNetwork (fun _ => None) sampleResolve
              sampleCaches "/index.html" eq_refl Hu eq_refl)
    as (response & _ & H).
  exists response. exact H.
Defined.
